(** * i.hyper.rgb: band selection and composite assembly

    A shallow embedding of [i.hyper.rgb.py] (GRASS GIS add-on that builds
    RGB/CMYK composites from a hyperspectral 3D raster) and the proofs of
    the properties its specification states.

    Layout:
    - [PyFloat]: Python's [float] as IEEE 754 binary64 ([SpecFloat], 53 bits
      of precision, exponent bound 1024) with the operations the script
      uses ([-], [abs], [<], [==], [float(int)]);
    - [PyStr]: the [str] methods the script calls;
    - [PyDict]: an insertion-ordered [dict] with [float] keys;
    - [Program]: the functions of the script, in a small state-and-error
      monad over the GRASS session (the raster store and the message log);
    - the theorems. *)

From Stdlib Require Import ZArith List String Ascii Bool Lia DecimalString.
From Stdlib Require Import Floats.SpecFloat.
Import ListNotations.
Local Open Scope Z_scope.

(** ** Python floats *)

Module PyFloat.

Definition prec : Z := 53.
Definition emax : Z := 1024.

(** A Python [float] is a binary64 value; [SpecFloat] has one NaN. *)
Definition float : Type := spec_float.

Definition nan : float := S754_nan.

(** [x - y] *)
Definition fsub (x y : float) : float := SFsub prec emax x y.
(** [abs(x)] *)
Definition fabs (x : float) : float := SFabs x.
(** [x < y], [x <= y], [x == y]: all false when an operand is NaN. *)
Definition flt (x y : float) : bool := SFltb x y.
Definition fle (x y : float) : bool := SFleb x y.
Definition feq (x y : float) : bool := SFeqb x y.

(** [float(i)] for a Python [int]: round to nearest, ties to even
    (exact when [|i| <= 2^53]). *)
Definition of_int (i : Z) : float := binary_normalize prec emax i 0 false.

(** The order on exponent-mantissa pairs that [SFcompare] uses for two
    finite values of the same sign. *)
Definition cmp_em (e1 : Z) (m1 : positive) (e2 : Z) (m2 : positive) : comparison :=
  match Z.compare e1 e2 with
  | Lt => Lt
  | Gt => Gt
  | Eq => Pos.compare_cont Eq m1 m2
  end.

Lemma cmp_em_Lt e1 m1 e2 m2 :
  cmp_em e1 m1 e2 m2 = Lt <-> (e1 < e2 \/ (e1 = e2 /\ (m1 < m2)%positive)).
Proof.
  unfold cmp_em. change (Pos.compare_cont Eq m1 m2) with (Pos.compare m1 m2).
  destruct (Z.compare_spec e1 e2) as [He|He|He].
  - rewrite Pos.compare_lt_iff. split; [intros H; right; auto | intros [H|[_ H]]; [lia | exact H]].
  - split; [intros _; left; exact He | reflexivity].
  - split; [discriminate | intros [H|[H _]]; lia].
Qed.

Lemma cmp_em_Gt e1 m1 e2 m2 :
  cmp_em e1 m1 e2 m2 = Gt <-> (e2 < e1 \/ (e1 = e2 /\ (m2 < m1)%positive)).
Proof.
  unfold cmp_em. change (Pos.compare_cont Eq m1 m2) with (Pos.compare m1 m2).
  destruct (Z.compare_spec e1 e2) as [He|He|He].
  - rewrite Pos.compare_gt_iff. split; [intros H; right; auto | intros [H|[_ H]]; [lia | exact H]].
  - split; [discriminate | intros [H|[H _]]; lia].
  - split; [intros _; left; exact He | reflexivity].
Qed.

Lemma cmp_em_Eq e1 m1 e2 m2 :
  cmp_em e1 m1 e2 m2 = Eq <-> (e1 = e2 /\ m1 = m2).
Proof.
  unfold cmp_em. change (Pos.compare_cont Eq m1 m2) with (Pos.compare m1 m2).
  destruct (Z.compare_spec e1 e2) as [He|He|He].
  - rewrite Pos.compare_eq_iff. split; [intros H; auto | intros [_ H]; exact H].
  - split; [discriminate | intros [H _]; lia].
  - split; [discriminate | intros [H _]; lia].
Qed.

(** [SFcompare] on two finite values, through [cmp_em]. *)
Lemma SFcompare_finite s1 m1 e1 s2 m2 e2 :
  SFcompare (S754_finite s1 m1 e1) (S754_finite s2 m2 e2) =
  Some (match s1, s2 with
        | true, false => Lt
        | false, true => Gt
        | false, false => cmp_em e1 m1 e2 m2
        | true, true => CompOpp (cmp_em e1 m1 e2 m2)
        end).
Proof.
  destruct s1, s2; simpl; unfold cmp_em; try reflexivity.
  destruct (Z.compare e1 e2); reflexivity.
Qed.

(** The comparison as a relation: [a] is below [b]. *)
Definition below (a b : float) : Prop := SFcompare a b = Some Lt.
Definition same (a b : float) : Prop := SFcompare a b = Some Eq.

Lemma flt_below a b : flt a b = true <-> below a b.
Proof.
  unfold flt, SFltb, below. destruct (SFcompare a b) as [[ | | ]|]; split; congruence.
Qed.

Lemma fle_below a b : fle a b = true <-> below a b \/ same a b.
Proof.
  unfold fle, SFleb, below, same.
  destruct (SFcompare a b) as [[ | | ]|]; split; try congruence; auto;
    intros [H|H]; congruence.
Qed.

Lemma feq_same a b : feq a b = true <-> same a b.
Proof.
  unfold feq, SFeqb, same. destruct (SFcompare a b) as [[ | | ]|]; split; congruence.
Qed.

Lemma below_trans a b c : below a b -> below b c -> below a c.
Proof.
  unfold below.
  destruct a as [sa|sa| |sa ma ea], b as [sb|sb| |sb mb eb], c as [sc|sc| |sc mc ec];
    try (simpl; repeat match goal with s : bool |- _ => destruct s end;
         simpl; congruence).
  rewrite !SFcompare_finite.
  destruct sa, sb, sc; intros H1 H2; try congruence.
  - destruct (cmp_em ea ma eb mb) eqn:E1; simpl in H1; try congruence.
    destruct (cmp_em eb mb ec mc) eqn:E2; simpl in H2; try congruence.
    apply cmp_em_Gt in E1, E2.
    assert (E3 : cmp_em ea ma ec mc = Gt) by (apply cmp_em_Gt; lia).
    rewrite E3. reflexivity.
  - assert (E1 : cmp_em ea ma eb mb = Lt) by congruence.
    assert (E2 : cmp_em eb mb ec mc = Lt) by congruence.
    apply cmp_em_Lt in E1, E2.
    assert (E3 : cmp_em ea ma ec mc = Lt) by (apply cmp_em_Lt; lia).
    rewrite E3. reflexivity.
Qed.

Lemma same_below_trans a b c : same a b -> below b c -> below a c.
Proof.
  unfold same, below.
  destruct a as [sa|sa| |sa ma ea], b as [sb|sb| |sb mb eb], c as [sc|sc| |sc mc ec];
    try (simpl; repeat match goal with s : bool |- _ => destruct s end;
         simpl; congruence).
  rewrite !SFcompare_finite.
  destruct sa, sb, sc; intros H1 H2; try congruence.
  - destruct (cmp_em ea ma eb mb) eqn:E1; simpl in H1; try congruence.
    destruct (cmp_em eb mb ec mc) eqn:E2; simpl in H2; try congruence.
    apply cmp_em_Eq in E1. apply cmp_em_Gt in E2.
    assert (E3 : cmp_em ea ma ec mc = Gt) by (apply cmp_em_Gt; lia).
    rewrite E3. reflexivity.
  - assert (E1 : cmp_em ea ma eb mb = Eq) by congruence.
    assert (E2 : cmp_em eb mb ec mc = Lt) by congruence.
    apply cmp_em_Eq in E1. apply cmp_em_Lt in E2.
    assert (E3 : cmp_em ea ma ec mc = Lt) by (apply cmp_em_Lt; lia).
    rewrite E3. reflexivity.
Qed.

Lemma below_irrefl a : ~ below a a.
Proof.
  unfold below. destruct a as [s|s| |s m e]; try (destruct s; simpl; congruence).
  - simpl; congruence.
  - rewrite SFcompare_finite.
    assert (E : cmp_em e m e m = Eq) by (apply cmp_em_Eq; auto).
    rewrite E. destruct s; simpl; congruence.
Qed.

Lemma same_sym a b : same a b -> same b a.
Proof.
  unfold same.
  destruct a as [sa|sa| |sa ma ea], b as [sb|sb| |sb mb eb];
    try (simpl; repeat match goal with s : bool |- _ => destruct s end;
         simpl; congruence).
  rewrite !SFcompare_finite.
  intros H.
  assert (E : cmp_em ea ma eb mb = Eq) by (destruct sa, sb, (cmp_em ea ma eb mb); simpl in *; congruence).
  apply cmp_em_Eq in E. destruct E as [-> ->].
  assert (E : cmp_em eb mb eb mb = Eq) by (apply cmp_em_Eq; auto).
  rewrite E. destruct sa, sb; simpl in *; congruence.
Qed.

Lemma same_trans a b c : same a b -> same b c -> same a c.
Proof.
  unfold same.
  destruct a as [sa|sa| |sa ma ea], b as [sb|sb| |sb mb eb], c as [sc|sc| |sc mc ec];
    try (simpl; repeat match goal with s : bool |- _ => destruct s end;
         simpl; congruence).
  rewrite !SFcompare_finite.
  intros H1 H2.
  assert (E1 : cmp_em ea ma eb mb = Eq)
    by (destruct sa, sb, (cmp_em ea ma eb mb); simpl in *; congruence).
  assert (E2 : cmp_em eb mb ec mc = Eq)
    by (destruct sb, sc, (cmp_em eb mb ec mc); simpl in *; congruence).
  apply cmp_em_Eq in E1, E2.
  assert (E3 : cmp_em ea ma ec mc = Eq) by (apply cmp_em_Eq; split; lia).
  rewrite E3. destruct sa, sb, sc; simpl in *; congruence.
Qed.

(** The facts about [<] and [<=] that the selection proofs use. *)
Lemma flt_trans a b c : flt a b = true -> flt b c = true -> flt a c = true.
Proof. rewrite !flt_below. apply below_trans. Qed.

Lemma fle_flt_trans a b c : fle a b = true -> flt b c = true -> flt a c = true.
Proof.
  rewrite fle_below, !flt_below. intros [H|H] H'.
  - eapply below_trans; eauto.
  - eapply same_below_trans; eauto.
Qed.

Lemma flt_irrefl a : flt a a = false.
Proof.
  destruct (flt a a) eqn:E; [|reflexivity].
  apply flt_below in E. exfalso. exact (below_irrefl a E).
Qed.

Lemma flt_fle a b : flt a b = true -> fle a b = true.
Proof. rewrite flt_below, fle_below. auto. Qed.

Lemma feq_fle a b : feq a b = true -> fle a b = true.
Proof. rewrite feq_same, fle_below. auto. Qed.

Lemma feq_sym a b : feq a b = feq b a.
Proof.
  destruct (feq a b) eqn:E1, (feq b a) eqn:E2; try reflexivity.
  - apply feq_same, same_sym, feq_same in E1. congruence.
  - apply feq_same, same_sym, feq_same in E2. congruence.
Qed.

Lemma feq_trans a b c : feq a b = true -> feq b c = true -> feq a c = true.
Proof. rewrite !feq_same. apply same_trans. Qed.

(** *** [float(i)] on the integers that binary64 holds exactly *)

Lemma digits2_iter_xO p n :
  digits2_pos (Pos.iter xO p n) = (digits2_pos p + n)%positive.
Proof.
  induction n as [|n IH] using Pos.peano_ind.
  - simpl. lia.
  - rewrite Pos.iter_succ. simpl. rewrite IH. lia.
Qed.

Lemma digits2_pos_bounds p :
  2 ^ (Zpos (digits2_pos p) - 1) <= Zpos p < 2 ^ Zpos (digits2_pos p).
Proof.
  induction p as [p IH|p IH|]; cbn [digits2_pos].
  - rewrite Pos2Z.inj_succ.
    replace (Z.succ (Zpos (digits2_pos p)) - 1)
      with (Z.succ (Zpos (digits2_pos p) - 1)) by lia.
    rewrite !Z.pow_succ_r by lia. lia.
  - rewrite Pos2Z.inj_succ.
    replace (Z.succ (Zpos (digits2_pos p)) - 1)
      with (Z.succ (Zpos (digits2_pos p) - 1)) by lia.
    rewrite !Z.pow_succ_r by lia. lia.
  - simpl. lia.
Qed.

Lemma shiftl_Z p n : Zpos (Pos.shiftl p n) = Zpos p * 2 ^ Z.of_N n.
Proof.
  destruct n as [|n]; cbn [Pos.shiftl Z.of_N].
  - lia.
  - induction n as [|n IH] using Pos.peano_ind.
    + simpl. lia.
    + rewrite Pos.iter_succ, Pos2Z.inj_succ, Z.pow_succ_r by lia.
      rewrite Pos2Z.inj_xO, IH. lia.
Qed.

(** No bit is shifted out of a 53-bit mantissa. *)
Lemma shr_fexp_exact m e :
  Zpos (digits2_pos m) = 53 -> -1074 <= e ->
  shr_fexp prec emax (Zpos m) e loc_Exact =
  ({| shr_m := Zpos m; shr_r := false; shr_s := false |}, e).
Proof.
  intros Hd He. unfold shr_fexp, fexp, emin, prec, emax.
  change (Zdigits2 (Zpos m)) with (Zpos (digits2_pos m)). rewrite Hd.
  replace (Z.max (53 + e - 53) (3 - 1024 - 53) - e) with 0 by lia.
  reflexivity.
Qed.

Lemma binary_round_aux_exact m e :
  Zpos (digits2_pos m) = 53 -> -1074 <= e <= 971 ->
  binary_round_aux prec emax false (Zpos m) e loc_Exact = S754_finite false m e.
Proof.
  intros Hd He. unfold binary_round_aux.
  rewrite (shr_fexp_exact m e Hd) by lia.
  cbn [shr_m loc_of_shr_record round_nearest_even].
  rewrite (shr_fexp_exact m e Hd) by lia.
  cbn [shr_m]. unfold prec, emax.
  destruct (Z.leb_spec e (1024 - 53)); [reflexivity|lia].
Qed.

(** [float(p)] for a positive [p] of at most 53 bits: the mantissa is [p]
    shifted left to 53 bits, nothing is rounded. *)
Lemma of_int_pos p :
  Zpos (digits2_pos p) <= 53 ->
  of_int (Zpos p) =
  S754_finite false (Pos.shiftl p (Z.to_N (53 - Zpos (digits2_pos p))))
              (Zpos (digits2_pos p) - 53).
Proof.
  intros Hd.
  unfold of_int, binary_normalize, binary_round, shl_align, fexp, emin, prec, emax.
  assert (H1 : 1 <= Zpos (digits2_pos p)) by lia.
  replace (Z.max (Z.pos (digits2_pos p) + 0 - 53) (3 - 1024 - 53) - 0)
    with (Zpos (digits2_pos p) - 53) by lia.
  replace (Z.max (Z.pos (digits2_pos p) + 0 - 53) (3 - 1024 - 53))
    with (Zpos (digits2_pos p) - 53) by lia.
  destruct (Zpos (digits2_pos p) - 53) as [|k|k] eqn:E.
  - replace (53 - Zpos (digits2_pos p)) with 0 by lia.
    cbn [Z.to_N Pos.shiftl].
    apply binary_round_aux_exact; lia.
  - lia.
  - replace (53 - Zpos (digits2_pos p)) with (Zpos k) by lia.
    cbn [Z.to_N Pos.shiftl].
    apply binary_round_aux_exact; [|lia].
    rewrite digits2_iter_xO. lia.
Qed.

(** [float] is strictly increasing on [1 .. 2^53 - 1]. *)
Lemma of_int_lt i j :
  0 < i -> i < j -> j < 2 ^ 53 -> flt (of_int i) (of_int j) = true.
Proof.
  intros Hi Hij Hj.
  destruct i as [|p|p]; try lia. destruct j as [|q|q]; try lia.
  pose proof (digits2_pos_bounds p) as Bp.
  pose proof (digits2_pos_bounds q) as Bq.
  assert (Dq : Zpos (digits2_pos q) <= 53).
  { destruct (Z.le_gt_cases (Zpos (digits2_pos q)) 53) as [H|H]; [exact H|].
    assert (2 ^ 53 <= 2 ^ (Zpos (digits2_pos q) - 1))
      by (apply Z.pow_le_mono_r; lia).
    lia. }
  assert (Dpq : Zpos (digits2_pos p) <= Zpos (digits2_pos q)).
  { destruct (Z.le_gt_cases (Zpos (digits2_pos p)) (Zpos (digits2_pos q)))
      as [H|H]; [exact H|].
    assert (2 ^ Zpos (digits2_pos q) <= 2 ^ (Zpos (digits2_pos p) - 1))
      by (apply Z.pow_le_mono_r; lia).
    lia. }
  rewrite !of_int_pos by lia.
  apply flt_below. unfold below. rewrite SFcompare_finite. f_equal.
  apply cmp_em_Lt.
  destruct (Z.eq_dec (Zpos (digits2_pos p)) (Zpos (digits2_pos q))) as [E|E];
    [right|left; lia].
  split; [lia|]. rewrite E.
  match goal with
  | |- (?a < ?b)%positive => enough (L : Zpos a < Zpos b) by exact L
  end.
  rewrite !shiftl_Z.
  apply Z.mul_lt_mono_pos_r; [apply Z.pow_pos_nonneg; lia | lia].
Qed.

Lemma flt_not_feq a b : flt a b = true -> feq a b = false.
Proof.
  unfold flt, feq, SFltb, SFeqb. destruct (SFcompare a b) as [[ | | ]|]; congruence.
Qed.

(** *** Rounding never loses a number *)

Definition valid (f : float) : bool := valid_binary prec emax f.

(** Zero or finite: neither an infinity nor NaN. *)
Definition is_finite (f : float) : bool :=
  match f with
  | S754_zero _ | S754_finite _ _ _ => true
  | _ => false
  end.

Definition is_nan (f : float) : bool :=
  match f with
  | S754_nan => true
  | _ => false
  end.

(** A finite value other than zero, or an infinity. *)
Definition is_nonzero_number (f : float) : Prop :=
  match f with
  | S754_finite _ _ _ | S754_infinity _ => True
  | _ => False
  end.

Lemma shr_1_m mrs : 0 <= shr_m mrs -> shr_m (shr_1 mrs) = shr_m mrs / 2.
Proof.
  destruct mrs as [m r s]. cbn [shr_m]. intros H. rewrite <- Z.div2_div.
  destruct m as [|[p|p|]|p]; try reflexivity. lia.
Qed.

Lemma iter_shr_m (p : positive) : forall mrs,
  0 <= shr_m mrs -> shr_m (iter_pos shr_1 p mrs) = shr_m mrs / 2 ^ Zpos p.
Proof.
  induction p as [p IH|p IH|]; intros mrs H; cbn [iter_pos].
  - assert (H1 : 0 <= shr_m (shr_1 mrs)) by (rewrite shr_1_m by exact H; apply Z.div_pos; lia).
    assert (H2 : 0 <= shr_m (iter_pos shr_1 p (shr_1 mrs)))
      by (rewrite IH by exact H1; apply Z.div_pos; [exact H1 | apply Z.pow_pos_nonneg; lia]).
    rewrite IH by exact H2. rewrite IH by exact H1. rewrite shr_1_m by exact H.
    assert (P : 0 < 2 ^ Zpos p) by (apply Z.pow_pos_nonneg; lia).
    rewrite !Z.div_div by lia. f_equal.
    replace (Zpos p~1) with (Zpos p + Zpos p + 1) by lia.
    rewrite !Z.pow_add_r by lia. change (2 ^ 1) with 2. ring.
  - assert (H2 : 0 <= shr_m (iter_pos shr_1 p mrs))
      by (rewrite IH by exact H; apply Z.div_pos; [exact H | apply Z.pow_pos_nonneg; lia]).
    rewrite IH by exact H2. rewrite IH by exact H.
    assert (P : 0 < 2 ^ Zpos p) by (apply Z.pow_pos_nonneg; lia).
    rewrite !Z.div_div by lia. f_equal.
    replace (Zpos p~0) with (Zpos p + Zpos p) by lia.
    rewrite !Z.pow_add_r by lia. reflexivity.
  - rewrite shr_1_m by exact H. reflexivity.
Qed.

(** The shift to the format's exponent keeps a positive mantissa
    positive, at an exponent not below [emin]. *)
Lemma shr_fexp_positive (m : positive) (e : Z) :
  -1074 <= e ->
  0 < shr_m (fst (shr_fexp prec emax (Zpos m) e loc_Exact)) /\
  -1074 <= snd (shr_fexp prec emax (Zpos m) e loc_Exact).
Proof.
  intros He. unfold shr_fexp, shr, fexp, emin, prec, emax.
  change (Zdigits2 (Zpos m)) with (Zpos (digits2_pos m)).
  cbn [shr_record_of_loc].
  pose proof (digits2_pos_bounds m) as B.
  destruct (Z.max (Zpos (digits2_pos m) + e - 53) (3 - 1024 - 53) - e) as [|n|n] eqn:En;
    cbn [fst snd shr_m]; try (split; lia).
  rewrite iter_shr_m by (cbn [shr_m]; lia). cbn [shr_m].
  assert (Hn : Zpos n = Zpos (digits2_pos m) - 53) by lia.
  split; [|lia].
  apply Z.lt_le_trans with (2 ^ 52); [reflexivity|].
  apply Z.div_le_lower_bound; [apply Z.pow_pos_nonneg; lia|].
  rewrite Hn, <- Z.pow_add_r by lia.
  replace (Zpos (digits2_pos m) - 53 + 52) with (Zpos (digits2_pos m) - 1) by lia.
  lia.
Qed.

Lemma round_nearest_even_ge mx lx : mx <= round_nearest_even mx lx.
Proof. destruct lx as [|[ | | ]]; cbn [round_nearest_even]; try destruct (Z.even mx); lia. Qed.

Lemma binary_round_aux_nonzero (s : bool) (m : positive) (e : Z) :
  -1074 <= e -> is_nonzero_number (binary_round_aux prec emax s (Zpos m) e loc_Exact).
Proof.
  intros He. unfold binary_round_aux.
  destruct (shr_fexp_positive m e He) as [P1 E1].
  destruct (shr_fexp prec emax (Zpos m) e loc_Exact) as [mrs1 e1]. cbn [fst snd] in P1, E1.
  pose proof (round_nearest_even_ge (shr_m mrs1) (loc_of_shr_record mrs1)) as G.
  destruct (round_nearest_even (shr_m mrs1) (loc_of_shr_record mrs1)) as [|m2|m2]; try lia.
  destruct (shr_fexp_positive m2 e1 E1) as [P2 E2].
  destruct (shr_fexp prec emax (Zpos m2) e1 loc_Exact) as [mrs2 e2]. cbn [fst snd] in P2, E2.
  destruct (shr_m mrs2) as [|m3|m3]; try lia.
  destruct (e2 <=? emax - prec); exact I.
Qed.

(** Rounding a non-zero integer at an exponent of the format gives a
    non-zero number: never zero, never NaN. *)
Lemma binary_round_nonzero (s : bool) (m : positive) (e : Z) :
  -1074 <= e -> is_nonzero_number (binary_round prec emax s m e).
Proof.
  intros He. unfold binary_round, shl_align.
  destruct (fexp prec emax (Zpos (digits2_pos m) + e) - e) as [|d|d] eqn:Ed;
    apply binary_round_aux_nonzero; try exact He.
  unfold fexp, emin, prec, emax. lia.
Qed.

Lemma valid_finite_exponent s m e :
  valid (S754_finite s m e) = true ->
  e = Z.max (Zpos (digits2_pos m) + e - 53) (-1074) /\ -1074 <= e.
Proof.
  unfold valid, valid_binary, bounded, canonical_mantissa, fexp, emin, prec, emax.
  intros H. apply andb_prop in H. destruct H as [H _]. apply Z.eqb_eq in H.
  change (3 - 1024 - 53) with (-1074) in H. lia.
Qed.

(** [x - y] for two finite values, in integers at the smaller exponent. *)
Lemma fsub_finite sx mx ex sy my ey :
  fsub (S754_finite sx mx ex) (S754_finite sy my ey) =
  binary_normalize prec emax
    (cond_Zopp sx (Zpos (fst (shl_align mx ex (Z.min ex ey))))
     - cond_Zopp sy (Zpos (fst (shl_align my ey (Z.min ex ey)))))
    (Z.min ex ey) false.
Proof. reflexivity. Qed.

Lemma shl_align_fst m e e' :
  e' <= e -> Zpos (fst (shl_align m e e')) = Zpos m * 2 ^ (e - e') /\
             Zpos (digits2_pos (fst (shl_align m e e'))) = Zpos (digits2_pos m) + (e - e').
Proof.
  intros H. unfold shl_align. destruct (e' - e) as [|d|d] eqn:Ed; cbn [fst]; try lia.
  - replace (e - e') with 0 by lia. rewrite Z.mul_1_r, Z.add_0_r. split; reflexivity.
  - replace (e - e') with (Zpos d) by lia. split.
    + change (Pos.iter xO m d) with (Pos.shiftl m (Npos d)). rewrite shiftl_Z. reflexivity.
    + rewrite digits2_iter_xO. lia.
Qed.

(** Two valid finite values whose difference is zero are equal. *)
Lemma aligned_equal sx mx ex sy my ey :
  valid (S754_finite sx mx ex) = true -> valid (S754_finite sy my ey) = true ->
  cond_Zopp sx (Zpos (fst (shl_align mx ex (Z.min ex ey))))
  - cond_Zopp sy (Zpos (fst (shl_align my ey (Z.min ex ey)))) = 0 ->
  sx = sy /\ mx = my /\ ex = ey.
Proof.
  intros Vx Vy H.
  destruct (valid_finite_exponent _ _ _ Vx) as [Cx _].
  destruct (valid_finite_exponent _ _ _ Vy) as [Cy _].
  destruct (shl_align_fst mx ex (Z.min ex ey) ltac:(lia)) as [Ax Dx].
  destruct (shl_align_fst my ey (Z.min ex ey) ltac:(lia)) as [Ay Dy].
  assert (Hs : sx = sy /\ fst (shl_align mx ex (Z.min ex ey)) = fst (shl_align my ey (Z.min ex ey))).
  { destruct sx, sy; cbn [cond_Zopp] in H; try lia; split; try reflexivity;
      apply Pos2Z.inj; lia. }
  destruct Hs as [Hs Hm]. rewrite Hm in Dx. rewrite Dx in Dy.
  assert (He : ex = ey) by lia.
  split; [exact Hs|]. split; [|exact He].
  rewrite Hm in Ax. rewrite Ax in Ay.
  replace (ex - Z.min ex ey) with 0 in Ay by lia.
  replace (ey - Z.min ex ey) with 0 in Ay by lia.
  apply Pos2Z.inj. lia.
Qed.

Lemma feq_refl_finite s m e : feq (S754_finite s m e) (S754_finite s m e) = true.
Proof.
  apply feq_same. unfold same. rewrite SFcompare_finite.
  assert (E : cmp_em e m e m = Eq) by (apply cmp_em_Eq; auto).
  rewrite E. destruct s; reflexivity.
Qed.

(** The difference of a number and a finite value is never NaN, and for
    valid values it is zero only when they are [==]. *)
Lemma fsub_zero_feq (x t : float) :
  valid x = true -> valid t = true -> is_nan x = false -> is_finite t = true ->
  match fabs (fsub x t) with
  | S754_zero _ => feq x t = true
  | S754_nan => False
  | _ => True
  end.
Proof.
  intros Vx Vt Nx Ft.
  destruct x as [sx|sx| |sx mx ex]; try discriminate;
    destruct t as [st|st| |st mt et]; try discriminate.
  - destruct sx, st; reflexivity.
  - exact I.
  - destruct sx; exact I.
  - destruct sx; exact I.
  - exact I.
  - rewrite fsub_finite.
    destruct (valid_finite_exponent _ _ _ Vx) as [_ Ex].
    destruct (valid_finite_exponent _ _ _ Vt) as [_ Et].
    destruct (cond_Zopp sx (Zpos (fst (shl_align mx ex (Z.min ex et))))
              - cond_Zopp st (Zpos (fst (shl_align mt et (Z.min ex et))))) as [|q|q] eqn:D.
    + cbn [binary_normalize fabs SFabs].
      destruct (aligned_equal _ _ _ _ _ _ Vx Vt D) as (-> & -> & ->).
      apply feq_refl_finite.
    + cbn [binary_normalize].
      pose proof (binary_round_nonzero false q (Z.min ex et) ltac:(lia)) as R.
      destruct (binary_round prec emax false q (Z.min ex et)); cbn in R |- *; tauto.
    + cbn [binary_normalize].
      pose proof (binary_round_nonzero true q (Z.min ex et) ltac:(lia)) as R.
      destruct (binary_round prec emax true q (Z.min ex et)); cbn in R |- *; tauto.
Qed.

(** A finite value minus a value [==] to it is [+0.0]. *)
Lemma fsub_self (k t : float) :
  feq k t = true -> is_finite t = true -> fabs (fsub k t) = S754_zero false.
Proof.
  intros H Ft. destruct t as [st|st| |st mt et]; try discriminate Ft.
  - destruct k as [sk|sk| |sk mk ek];
      [destruct sk, st; reflexivity | destruct sk; discriminate H | discriminate H
       | destruct sk; discriminate H].
  - destruct k as [sk|sk| |sk mk ek];
      [destruct st; discriminate H | destruct sk; discriminate H | discriminate H | ].
    apply feq_same in H. unfold same in H. rewrite SFcompare_finite in H.
    assert (E : sk = st /\ cmp_em ek mk et mt = Eq).
    { destruct sk, st, (cmp_em ek mk et mt); cbn in H; try discriminate; split; reflexivity. }
    destruct E as [-> E]. apply cmp_em_Eq in E. destruct E as [-> ->].
    rewrite fsub_finite, Z.sub_diag. reflexivity.
Qed.

(** *** Exact differences of integers *)

Lemma digits2_shiftl p n :
  Zpos (digits2_pos (Pos.shiftl p n)) = Zpos (digits2_pos p) + Z.of_N n.
Proof.
  destruct n as [|n]; cbn [Pos.shiftl Z.of_N]; [lia|]. rewrite digits2_iter_xO. lia.
Qed.

Lemma digits2_pos_mono p q : Zpos p <= Zpos q -> Zpos (digits2_pos p) <= Zpos (digits2_pos q).
Proof.
  intros H. pose proof (digits2_pos_bounds p) as Bp. pose proof (digits2_pos_bounds q) as Bq.
  destruct (Z.le_gt_cases (Zpos (digits2_pos p)) (Zpos (digits2_pos q))) as [L|L]; [exact L|].
  assert (2 ^ Zpos (digits2_pos q) <= 2 ^ (Zpos (digits2_pos p) - 1))
    by (apply Z.pow_le_mono_r; lia).
  lia.
Qed.

Lemma digits2_pos_53 p : Zpos p < 2 ^ 53 -> Zpos (digits2_pos p) <= 53.
Proof.
  intros H. pose proof (digits2_pos_bounds p) as Bp.
  destruct (Z.le_gt_cases (Zpos (digits2_pos p)) 53) as [L|L]; [exact L|].
  assert (2 ^ 53 <= 2 ^ (Zpos (digits2_pos p) - 1)) by (apply Z.pow_le_mono_r; lia).
  lia.
Qed.

Lemma shr_1_exact m :
  0 <= m ->
  shr_1 {| shr_m := 2 * m; shr_r := false; shr_s := false |} =
  {| shr_m := m; shr_r := false; shr_s := false |}.
Proof. destruct m as [|p|p]; [reflexivity | reflexivity | lia]. Qed.

(** Shifting out zero bits loses nothing. *)
Lemma iter_shr_exact (c : positive) : forall m,
  0 <= m ->
  iter_pos shr_1 c {| shr_m := 2 ^ Zpos c * m; shr_r := false; shr_s := false |} =
  {| shr_m := m; shr_r := false; shr_s := false |}.
Proof.
  induction c as [c IH|c IH|]; intros m Hm; cbn [iter_pos].
  - assert (P : 0 < 2 ^ Zpos c) by (apply Z.pow_pos_nonneg; lia).
    replace (2 ^ Zpos c~1 * m) with (2 * (2 ^ Zpos c * (2 ^ Zpos c * m))).
    + rewrite shr_1_exact by nia. rewrite IH by nia. apply IH. exact Hm.
    + replace (Zpos c~1) with (Zpos c + Zpos c + 1) by lia.
      rewrite !Z.pow_add_r by lia. change (2 ^ 1) with 2. ring.
  - assert (P : 0 < 2 ^ Zpos c) by (apply Z.pow_pos_nonneg; lia).
    replace (2 ^ Zpos c~0 * m) with (2 ^ Zpos c * (2 ^ Zpos c * m)).
    + rewrite IH by nia. apply IH. exact Hm.
    + replace (Zpos c~0) with (Zpos c + Zpos c) by lia.
      rewrite !Z.pow_add_r by lia. ring.
  - change (2 ^ 1) with 2. apply shr_1_exact. exact Hm.
Qed.

Lemma binary_round_aux_exact_signed (s : bool) m e :
  Zpos (digits2_pos m) = 53 -> -1074 <= e <= 971 ->
  binary_round_aux prec emax s (Zpos m) e loc_Exact = S754_finite s m e.
Proof.
  intros Hd He. unfold binary_round_aux.
  rewrite (shr_fexp_exact m e Hd) by lia.
  cbn [shr_m loc_of_shr_record round_nearest_even].
  rewrite (shr_fexp_exact m e Hd) by lia.
  cbn [shr_m]. unfold prec, emax.
  destruct (Z.leb_spec e (1024 - 53)); [reflexivity|lia].
Qed.

(** Rounding [p * 2^k] at the exponent [-k] gives [float(p)] with the
    sign asked for: an integer of at most 53 bits is held exactly. *)
Lemma binary_round_shifted (s : bool) (p q : positive) (k : Z) :
  Zpos (digits2_pos p) <= 53 -> 0 <= k <= 52 -> Zpos q = Zpos p * 2 ^ k ->
  binary_round prec emax s q (- k) =
  S754_finite s (Pos.shiftl p (Z.to_N (53 - Zpos (digits2_pos p))))
              (Zpos (digits2_pos p) - 53).
Proof.
  intros Hd Hk Hq.
  assert (Eq : q = Pos.shiftl p (Z.to_N k)).
  { apply Pos2Z.inj. rewrite shiftl_Z, Z2N.id by lia. exact Hq. }
  assert (Dq : Zpos (digits2_pos q) = Zpos (digits2_pos p) + k).
  { rewrite Eq, digits2_shiftl, Z2N.id by lia. reflexivity. }
  assert (D1 : 1 <= Zpos (digits2_pos p)) by lia.
  set (d := Zpos (digits2_pos p)) in *.
  set (target := Pos.shiftl p (Z.to_N (53 - d))).
  assert (Ht : Zpos target = Zpos p * 2 ^ (53 - d))
    by (unfold target; rewrite shiftl_Z, Z2N.id by lia; reflexivity).
  assert (Dt : Zpos (digits2_pos target) = 53)
    by (unfold target; rewrite digits2_shiftl, Z2N.id by lia; fold d; lia).
  unfold binary_round, shl_align, fexp, emin, prec, emax. rewrite Dq.
  replace (Z.max (d + k + - k - 53) (3 - 1024 - 53)) with (d - 53) by lia.
  destruct (d - 53 - - k) as [|c|c] eqn:En.
  - assert (q = target) as ->.
    { apply Pos2Z.inj. rewrite Hq, Ht. f_equal. f_equal. lia. }
    replace (- k) with (d - 53) by lia.
    apply binary_round_aux_exact_signed; [exact Dt | lia].
  - assert (S1 : shr_fexp prec emax (Zpos q) (- k) loc_Exact =
                 ({| shr_m := Zpos target; shr_r := false; shr_s := false |}, d - 53)).
    { unfold shr_fexp, shr, fexp, emin, prec, emax.
      change (Zdigits2 (Zpos q)) with (Zpos (digits2_pos q)). rewrite Dq.
      replace (Z.max (d + k + - k - 53) (3 - 1024 - 53) - - k) with (Zpos c) by lia.
      cbn [shr_record_of_loc].
      replace (Zpos q) with (2 ^ Zpos c * Zpos target).
      - rewrite iter_shr_exact by lia. f_equal. lia.
      - rewrite Hq, Ht. replace k with (Zpos c + (53 - d)) at 1 by lia.
        rewrite Z.pow_add_r by lia. ring. }
    unfold binary_round_aux. change (shr_fexp 53 1024) with (shr_fexp prec emax).
    rewrite S1.
    cbn [shr_m loc_of_shr_record round_nearest_even].
    rewrite (shr_fexp_exact target (d - 53) Dt) by lia.
    cbn [shr_m]. unfold prec, emax.
    destruct (Z.leb_spec (d - 53) (1024 - 53)); [reflexivity | lia].
  - assert (Pos.iter xO q c = target) as ->.
    { apply Pos2Z.inj. change (Pos.iter xO q c) with (Pos.shiftl q (Npos c)).
      rewrite shiftl_Z, Hq, Ht. cbn [Z.of_N].
      replace (53 - d) with (k + Zpos c) by lia.
      rewrite Z.pow_add_r by lia. ring. }
    apply binary_round_aux_exact_signed; [exact Dt | lia].
Qed.

(** For integers [0 < i <= T < 2^53], [abs(float(i) - float(T))] is
    [float(T - i)]: the distance is exact. *)
Lemma distance_of_int (i T : Z) :
  0 < i -> i <= T -> T < 2 ^ 53 ->
  fabs (fsub (of_int i) (of_int T)) = of_int (T - i).
Proof.
  intros Hi HiT HT.
  destruct (Z.eq_dec i T) as [->|Hne].
  - rewrite Z.sub_diag. destruct T as [|pT|pT]; try lia.
    rewrite of_int_pos by (apply digits2_pos_53; lia).
    apply fsub_self; [apply feq_refl_finite | reflexivity].
  - destruct i as [|pi|pi]; try lia. destruct T as [|pT|pT]; try lia.
    assert (Di : Zpos (digits2_pos pi) <= 53) by (apply digits2_pos_53; lia).
    assert (DT : Zpos (digits2_pos pT) <= 53) by (apply digits2_pos_53; lia).
    assert (DiT : Zpos (digits2_pos pi) <= Zpos (digits2_pos pT))
      by (apply digits2_pos_mono; lia).
    destruct (Zpos pT - Zpos pi) as [|r|r] eqn:Er; try lia.
    assert (Dr : Zpos (digits2_pos r) <= 53) by (apply digits2_pos_53; lia).
    rewrite (of_int_pos pi Di), (of_int_pos pT DT), (of_int_pos r Dr).
    rewrite fsub_finite.
    set (di := Zpos (digits2_pos pi)) in *. set (dT := Zpos (digits2_pos pT)) in *.
    replace (Z.min (di - 53) (dT - 53)) with (di - 53) by lia.
    destruct (shl_align_fst (Pos.shiftl pi (Z.to_N (53 - di))) (di - 53) (di - 53)
                ltac:(lia)) as [Ai _].
    destruct (shl_align_fst (Pos.shiftl pT (Z.to_N (53 - dT))) (dT - 53) (di - 53)
                ltac:(lia)) as [AT _].
    rewrite shiftl_Z, Z2N.id in Ai, AT by lia.
    cbn [cond_Zopp]. rewrite Ai, AT.
    replace (di - 53 - (di - 53)) with 0 by lia.
    replace (dT - 53 - (di - 53)) with (dT - di) by lia.
    rewrite Z.mul_1_r.
    assert (E : Zpos pi * 2 ^ (53 - di) - Zpos pT * 2 ^ (53 - dT) * 2 ^ (dT - di)
                = - (Zpos r * 2 ^ (53 - di))).
    { replace (53 - di) with ((53 - dT) + (dT - di)) by lia.
      rewrite Z.pow_add_r by lia. rewrite <- Er. ring. }
    rewrite E.
    assert (P : 0 < 2 ^ (53 - di)) by (apply Z.pow_pos_nonneg; lia).
    destruct (Zpos r * 2 ^ (53 - di)) as [|q|q] eqn:Eq; try nia.
    cbn [Z.opp binary_normalize].
    replace (di - 53) with (- (53 - di)) by lia.
    rewrite (binary_round_shifted true r q (53 - di) Dr ltac:(lia) (eq_sym Eq)).
    reflexivity.
Qed.

End PyFloat.

(** ** Python strings *)

Module PyStr.
Local Open Scope string_scope.

Definition in_range (lo hi : nat) (c : ascii) : bool :=
  (Nat.leb lo (nat_of_ascii c) && Nat.leb (nat_of_ascii c) hi)%bool.

Definition lower_char (c : ascii) : ascii :=
  if in_range 65 90 c then ascii_of_nat (nat_of_ascii c + 32) else c.

Definition upper_char (c : ascii) : ascii :=
  if in_range 97 122 c then ascii_of_nat (nat_of_ascii c - 32) else c.

Fixpoint map_chars (f : ascii -> ascii) (s : string) : string :=
  match s with
  | EmptyString => EmptyString
  | String c r => String (f c) (map_chars f r)
  end.

(** [s.lower()] and [s.upper()] on ASCII text: the letters A-Z and a-z
    change case, every other character stays.  Python's methods know the
    case of every Unicode letter; outside ASCII text they are not
    [lower] and [upper], and a statement that reads the text [upper]
    gives asks for [isascii]. *)
Definition lower (s : string) : string := map_chars lower_char s.
Definition upper (s : string) : string := map_chars upper_char s.

(** [s.isascii()] *)
Fixpoint isascii (s : string) : bool :=
  match s with
  | EmptyString => true
  | String c r => (Nat.ltb (nat_of_ascii c) 128 && isascii r)%bool
  end.

(** [s.startswith(p)] *)
Definition startswith (s p : string) : bool := prefix p s.

(** [sub in s] *)
Fixpoint contains (sub s : string) : bool :=
  (prefix sub s ||
   match s with
   | EmptyString => false
   | String _ r => contains sub r
   end)%bool.

(** [s.split(sep)] for a one-character separator: never the empty list. *)
Fixpoint split (sep : ascii) (s : string) : list string :=
  match s with
  | EmptyString => [EmptyString]
  | String c r =>
      match split sep r with
      | [] => [String c EmptyString]
      | h :: t => if Ascii.eqb c sep then EmptyString :: h :: t else String c h :: t
      end
  end.

(** The characters [str.isspace] accepts below 128: tab to carriage
    return, the four separators 28..31, and the space. *)
Definition is_space (c : ascii) : bool :=
  (in_range 9 13 c || in_range 28 32 c)%bool.

Fixpoint lstrip (s : string) : string :=
  match s with
  | EmptyString => EmptyString
  | String c r => if is_space c then lstrip r else s
  end.

Fixpoint rstrip (s : string) : string :=
  match s with
  | EmptyString => EmptyString
  | String c r =>
      match rstrip r with
      | EmptyString => if is_space c then EmptyString else String c EmptyString
      | r' => String c r'
      end
  end.

(** [s.strip()] *)
Definition strip (s : string) : string := rstrip (lstrip s).

(** [sep.join(l)] *)
Definition join (sep : string) (l : list string) : string := String.concat sep l.

(** [str(i)] for an [int], as an f-string field prints it. *)
Definition str_int (i : Z) : string := NilEmpty.string_of_int (Z.to_int i).

Definition newline : ascii := ascii_of_nat 10.

End PyStr.

(** ** Python built-ins on sequences *)

Module PySeq.
Import PyFloat.

(** [range(lo, hi)] *)
Definition range (lo hi : Z) : list Z :=
  map (fun n => lo + Z.of_nat n) (seq 0 (Z.to_nat (hi - lo))).

(** [len(l)] *)
Definition len {A : Type} (l : list A) : Z := Z.of_nat (List.length l).

Lemma range_in lo hi i : In i (range lo hi) <-> lo <= i < hi.
Proof.
  unfold range. rewrite in_map_iff. split.
  - intros [n [<- Hn]]. apply in_seq in Hn. lia.
  - intros H. exists (Z.to_nat (i - lo)). split; [lia|]. apply in_seq. lia.
Qed.

Lemma range_empty lo hi : hi <= lo -> range lo hi = [].
Proof.
  intros H. unfold range. replace (Z.to_nat (hi - lo)) with 0%nat by lia. reflexivity.
Qed.

Lemma range_snoc lo hi : lo <= hi -> range lo (hi + 1) = range lo hi ++ [hi].
Proof.
  intros H. unfold range.
  replace (Z.to_nat (hi + 1 - lo)) with (S (Z.to_nat (hi - lo))) by lia.
  rewrite seq_S, map_app. cbn [map]. do 2 f_equal. lia.
Qed.

Lemma range_split lo mid hi :
  lo <= mid <= hi -> range lo hi = range lo mid ++ range mid hi.
Proof.
  intros H. replace hi with (mid + Z.of_nat (Z.to_nat (hi - mid))) by lia.
  induction (Z.to_nat (hi - mid)) as [|n IH].
  - rewrite Z.add_0_r, (range_empty mid mid), app_nil_r by lia. reflexivity.
  - replace (mid + Z.of_nat (S n)) with (mid + Z.of_nat n + 1) by lia.
    rewrite !range_snoc by lia. rewrite IH, app_assoc. reflexivity.
Qed.

Lemma range_cons lo hi : lo < hi -> range lo hi = lo :: range (lo + 1) hi.
Proof.
  intros H. rewrite (range_split lo (lo + 1) hi) by lia.
  rewrite (range_snoc lo lo), (range_empty lo lo) by lia. reflexivity.
Qed.

Section Min.
Context {A : Type} (key : A -> float).

(** The loop of [min(iterable, key=...)]: the running best and its key
    value; an item replaces the best only when its key value is [<]. *)
Fixpoint min_from (best : A) (best_val : float) (l : list A) : A :=
  match l with
  | [] => best
  | x :: r =>
      let v := key x in
      if flt v best_val then min_from x v r else min_from best best_val r
  end.

(** [min(l, key=key)]; [None] is the [ValueError] on an empty sequence. *)
Definition py_min (l : list A) : option A :=
  match l with
  | [] => None
  | x :: r => Some (min_from x (key x) r)
  end.

(** Where [min] stops: either the running best survives, or the result
    is strictly below it and is the first item of the rest that no
    earlier item ties or beats. *)
Lemma min_from_first (l : list A) : forall b,
  let m := min_from b (key b) l in
  (m = b /\ forall x, In x l -> flt (key x) (key b) = false) \/
  (flt (key m) (key b) = true /\
   exists l1 l2, l = l1 ++ m :: l2 /\
     (forall x, In x l1 -> fle (key x) (key m) = false) /\
     (forall x, In x l2 -> flt (key x) (key m) = false)).
Proof.
  induction l as [|x r IH]; intros b; cbn [min_from].
  - left. split; [reflexivity | intros x []].
  - destruct (flt (key x) (key b)) eqn:Hx.
    + right. destruct (IH x) as [[Hm Hr] | [Hlt (l1 & l2 & Hs & H1 & H2)]].
      * rewrite Hm. split; [exact Hx|].
        exists [], r. split; [reflexivity|]. split; [intros y []|exact Hr].
      * split; [eapply flt_trans; eauto|].
        exists (x :: l1), l2. split; [cbn [app]; f_equal; exact Hs|].
        split; [|exact H2].
        intros y [<-|Hy]; [|apply H1; exact Hy].
        destruct (fle (key x) (key (min_from x (key x) r))) eqn:E; [|reflexivity].
        pose proof (fle_flt_trans _ _ _ E Hlt) as C.
        rewrite flt_irrefl in C. discriminate.
    + destruct (IH b) as [[Hm Hr] | [Hlt (l1 & l2 & Hs & H1 & H2)]].
      * left. split; [exact Hm|].
        intros y [<-|Hy]; [exact Hx | apply Hr; exact Hy].
      * right. split; [exact Hlt|].
        exists (x :: l1), l2. split; [cbn [app]; f_equal; exact Hs|].
        split; [|exact H2].
        intros y [<-|Hy]; [|apply H1; exact Hy].
        destruct (fle (key x) (key (min_from b (key b) r))) eqn:E; [|reflexivity].
        pose proof (fle_flt_trans _ _ _ E Hlt) as C. congruence.
Qed.

(** [min] returns an item of the sequence, the first one that no item
    is strictly below. *)
Lemma py_min_first (l : list A) (m : A) :
  py_min l = Some m ->
  exists l1 l2, l = l1 ++ m :: l2 /\
    (forall x, In x l1 -> fle (key x) (key m) = false) /\
    (forall x, In x l -> flt (key x) (key m) = false).
Proof.
  destruct l as [|b r]; [discriminate|]. cbn [py_min]. intros H.
  injection H as <-.
  destruct (min_from_first r b) as [[Hm Hr] | [Hlt (l1 & l2 & Hs & H1 & H2)]].
  - rewrite Hm. exists [], r. split; [reflexivity|]. split; [intros x []|].
    intros x [<-|Hx]; [apply flt_irrefl | apply Hr; exact Hx].
  - set (m := min_from b (key b) r) in *.
    assert (Hb : fle (key b) (key m) = false).
    { destruct (fle (key b) (key m)) eqn:E; [|reflexivity].
      pose proof (fle_flt_trans _ _ _ E Hlt) as C.
      rewrite flt_irrefl in C. discriminate. }
    exists (b :: l1), l2. split; [cbn [app]; f_equal; exact Hs|].
    split; [intros x [<-|Hx]; [exact Hb | apply H1; exact Hx]|].
    assert (Hno : forall x, fle (key x) (key m) = false -> flt (key x) (key m) = false).
    { intros x Hx. destruct (flt (key x) (key m)) eqn:E; [|reflexivity].
      apply flt_fle in E. congruence. }
    intros x [<-|Hx]; [apply Hno; exact Hb|].
    rewrite Hs in Hx. apply in_app_or in Hx. destruct Hx as [Hx|[<-|Hx]].
    + apply Hno, H1, Hx.
    + apply flt_irrefl.
    + apply H2, Hx.
Qed.

Lemma py_min_nonempty (l : list A) : l <> [] -> exists m, py_min l = Some m.
Proof. destruct l; [congruence | intros _; eexists; reflexivity]. Qed.

End Min.

End PySeq.

(** ** Python dicts with float keys *)

Module PyDict.
Import PyFloat.

(** The entries in insertion order, which is the order [keys()] and
    [items()] iterate in.  The key type is [float]; the values are
    band indices. *)
Definition dict : Type := list (float * Z).

(** [d[k] = v] for a key object [k] that is not yet stored in [d]
    (every [float(...)] call makes a new object): an entry whose key
    [==] [k] keeps its key and its place and takes the new value;
    otherwise the pair goes to the end.  A NaN never [==] anything, so
    each NaN key is an entry of its own. *)
Fixpoint setitem (d : dict) (k : float) (v : Z) : dict :=
  match d with
  | [] => [(k, v)]
  | (k', v') :: r =>
      if feq k' k then (k', v) :: r else (k', v') :: setitem r k v
  end.

(** [d[k]] for a key object that is not stored in [d]: the entry whose
    key [==] [k]; [None] is the [KeyError]. *)
Fixpoint getitem (d : dict) (k : float) : option Z :=
  match d with
  | [] => None
  | (k', v) :: r => if feq k' k then Some v else getitem r k
  end.

(** A key object stored in the dict: its slot and its value.  The slot
    stands for the identity of the object. *)
Definition key_obj : Type := nat * float.

Fixpoint keys_from (q : nat) (d : dict) : list key_obj :=
  match d with
  | [] => []
  | (k, _) :: r => (q, k) :: keys_from (S q) r
  end.

(** [d.keys()] *)
Definition keys (d : dict) : list key_obj := keys_from 0 d.

(** [d[o]] for a key object [o] taken from [d.keys()]: the lookup
    accepts an entry whose key is the same object or [==] it. *)
Fixpoint getitem_from (q : nat) (d : dict) (o : key_obj) : option Z :=
  match d with
  | [] => None
  | (k', v) :: r =>
      if (Nat.eqb q (fst o) || feq k' (snd o))%bool then Some v
      else getitem_from (S q) r o
  end.

Definition getitem_obj (d : dict) (o : key_obj) : option Z := getitem_from 0 d o.

(** The invariant of a dict: no two entries have [==] keys. *)
Fixpoint wf (d : dict) : Prop :=
  match d with
  | [] => True
  | (k, _) :: r => (forall k' v', In (k', v') r -> feq k k' = false) /\ wf r
  end.

Lemma setitem_in d k v k' v' :
  In (k', v') (setitem d k v) -> (exists v'', In (k', v'') d) \/ k' = k.
Proof.
  induction d as [|[k0 v0] r IH]; cbn [setitem].
  - intros [H|[]]. right. congruence.
  - destruct (feq k0 k).
    + intros [H|H].
      * left. exists v0. left. congruence.
      * left. exists v'. right. exact H.
    + intros [H|H].
      * left. exists v0. left. congruence.
      * destruct (IH H) as [[v'' H']|H']; [left; exists v''; right; exact H' | right; exact H'].
Qed.

Lemma setitem_wf d k v : wf d -> wf (setitem d k v).
Proof.
  induction d as [|[k0 v0] r IH]; cbn [setitem wf].
  - intros _. split; [intros ? ? []|exact I].
  - intros [H0 Hr]. destruct (feq k0 k) eqn:E; cbn [wf].
    + split; assumption.
    + split; [|apply IH; exact Hr].
      intros k' v' Hin. apply setitem_in in Hin.
      destruct Hin as [[v'' Hin]| ->]; [eapply H0; exact Hin | exact E].
Qed.

Lemma setitem_nonempty d k v : setitem d k v <> [].
Proof. destruct d as [|[k0 v0] r]; cbn [setitem]; [|destruct (feq k0 k)]; discriminate. Qed.

(** A key that [==] no stored key is appended. *)
Lemma setitem_fresh d k v :
  (forall k' v', In (k', v') d -> feq k' k = false) ->
  setitem d k v = d ++ [(k, v)].
Proof.
  induction d as [|[k0 v0] r IH]; cbn [setitem app]; intros H; [reflexivity|].
  rewrite (H k0 v0) by (left; reflexivity).
  f_equal. apply IH. intros k' v' Hin. apply (H k' v'). right. exact Hin.
Qed.

(** After [d[k] = v], looking up a key that [==] [k] gives [v]. *)
Lemma getitem_setitem_same d k v k' :
  feq k k' = true -> getitem (setitem d k v) k' = Some v.
Proof.
  intros Hkk'. induction d as [|[k0 v0] r IH]; cbn [setitem getitem].
  - rewrite Hkk'. reflexivity.
  - destruct (feq k0 k) eqn:E; cbn [getitem].
    + rewrite (feq_trans _ _ _ E Hkk'). reflexivity.
    + destruct (feq k0 k') eqn:E'; [|exact IH].
      rewrite feq_sym in Hkk'.
      rewrite (feq_trans _ _ _ E' Hkk') in E. discriminate.
Qed.

(** [d[k] = v] leaves the lookup of every key that is not [==] [k] as
    it was. *)
Lemma getitem_setitem_other d k v k' :
  feq k k' = false -> getitem (setitem d k v) k' = getitem d k'.
Proof.
  intros Hkk'. induction d as [|[k0 v0] r IH]; cbn [setitem getitem].
  - rewrite Hkk'. reflexivity.
  - destruct (feq k0 k) eqn:E; cbn [getitem].
    + destruct (feq k0 k') eqn:E'; [|reflexivity].
      rewrite feq_sym in E.
      rewrite (feq_trans _ _ _ E E') in Hkk'. discriminate.
    + destruct (feq k0 k'); [reflexivity | exact IH].
Qed.

(** In a well-formed dict, looking up the value of a stored key that is
    not NaN finds the entry of that key. *)
Lemma getitem_in d k v :
  wf d -> In (k, v) d -> feq k k = true -> getitem d k = Some v.
Proof.
  intros Hwf Hin Hk. induction d as [|[k0 v0] r IH]; [destruct Hin|].
  cbn [wf] in Hwf. destruct Hwf as [H0 Hr]. cbn [getitem].
  destruct Hin as [E|Hin].
  - injection E as -> ->. rewrite Hk. reflexivity.
  - rewrite (H0 _ _ Hin). apply IH; assumption.
Qed.

Lemma keys_from_in q d o :
  In o (keys_from q d) -> (q <= fst o)%nat /\ exists v, In (snd o, v) d.
Proof.
  revert q. induction d as [|[k0 v0] r IH]; intros q; cbn [keys_from].
  - intros [].
  - intros [<-|H].
    + split; [apply Nat.le_refl|]. exists v0. left. reflexivity.
    + destruct (IH _ H) as [Hq [v Hv]].
      split; [lia|]. exists v. right. exact Hv.
Qed.

(** In a well-formed dict the lookup of a stored key object finds the
    entry of that very object. *)
Lemma getitem_from_keys q d o :
  wf d -> In o (keys_from q d) ->
  exists v, getitem_from q d o = Some v /\ In (snd o, v) d.
Proof.
  revert q. induction d as [|[k0 v0] r IH]; intros q; cbn [keys_from getitem_from wf].
  - intros _ [].
  - intros [H0 Hr] [<-|H].
    + cbn [fst snd]. rewrite Nat.eqb_refl. exists v0. split; [reflexivity | left; reflexivity].
    + destruct (keys_from_in _ _ _ H) as [Hq [v Hv]].
      assert (E1 : Nat.eqb q (fst o) = false) by (apply Nat.eqb_neq; lia).
      rewrite E1, (H0 _ _ Hv). cbn [orb].
      destruct (IH _ Hr H) as [v' [G Hin]].
      exists v'. split; [exact G | right; exact Hin].
Qed.

Lemma keys_from_map q d : map snd (keys_from q d) = map fst d.
Proof.
  revert q. induction d as [|[k0 v0] r IH]; intros q; cbn [keys_from map]; [reflexivity|].
  cbn [snd fst]. f_equal. apply IH.
Qed.

Lemma keys_nonempty d : d <> [] -> keys d <> [].
Proof. destruct d as [|[k v] r]; [congruence | discriminate]. Qed.

Lemma in_keys_from q d k v : In (k, v) d -> exists p, In (p, k) (keys_from q d).
Proof.
  revert q. induction d as [|[k0 v0] r IH]; intros q; cbn [keys_from].
  - intros [].
  - intros [H|H].
    + exists q. left. congruence.
    + destruct (IH (S q) H) as [p Hp]. exists p. right. exact Hp.
Qed.

(** A key object of [d.keys()] marks an entry of [d]; the entries before
    it are those of the key objects before it, and in a well-formed dict
    the lookup of the object gives the value of that entry. *)
Lemma keys_from_split d : forall q l1' o l2',
  keys_from q d = l1' ++ o :: l2' ->
  exists l1 v l2,
    d = l1 ++ (snd o, v) :: l2 /\
    map fst l1 = map snd l1' /\
    (wf d -> getitem_from q d o = Some v).
Proof.
  induction d as [|[k0 v0] r IH]; intros q l1' o l2'; cbn [keys_from].
  - destruct l1'; discriminate.
  - destruct l1' as [|x l1'']; cbn [app]; intros H; injection H as Hx Hr.
    + subst o. exists [], v0, r. cbn [snd fst map app getitem_from].
      rewrite Nat.eqb_refl. repeat split; reflexivity.
    + destruct (IH _ _ _ _ Hr) as (l1 & v & l2 & Hd & Hm & Hg).
      exists ((k0, v0) :: l1), v, l2. subst x. cbn [map fst snd app].
      split; [f_equal; exact Hd|]. split; [f_equal; exact Hm|].
      cbn [wf getitem_from]. intros [H0 Hwf].
      assert (Hin : In o (keys_from (S q) r))
        by (rewrite Hr; apply in_or_app; right; left; reflexivity).
      destruct (keys_from_in _ _ _ Hin) as [Hq [v' Hv']].
      assert (E1 : Nat.eqb q (fst o) = false) by (apply Nat.eqb_neq; lia).
      rewrite E1, (H0 _ _ Hv'). cbn [orb]. apply Hg. exact Hwf.
Qed.

(** The entries were inserted in strictly ascending key order. *)
Fixpoint ascending (d : dict) : Prop :=
  match d with
  | [] => True
  | (k, _) :: r => (forall k' v', In (k', v') r -> flt k k' = true) /\ ascending r
  end.

Lemma ascending_split l1 k v l2 :
  ascending (l1 ++ (k, v) :: l2) -> forall k' v', In (k', v') l2 -> flt k k' = true.
Proof.
  induction l1 as [|[k0 v0] r IH]; cbn [app ascending].
  - intros [H _]. exact H.
  - intros [_ H]. apply IH. exact H.
Qed.

Lemma ascending_wf d : ascending d -> wf d.
Proof.
  induction d as [|[k0 v0] r IH]; cbn [ascending wf]; [trivial|].
  intros [H Hr]. split; [|apply IH; exact Hr].
  intros k' v' Hin. apply flt_not_feq. eapply H. exact Hin.
Qed.

(** The entries after [d[k] = v]: those of [d], but for the one that
    holds [v] under [k] or under the stored key that [==] [k]. *)
Lemma setitem_entries d k v k' v' :
  In (k', v') (setitem d k v) ->
  In (k', v') d \/ (v' = v /\ (k' = k \/ feq k' k = true)).
Proof.
  induction d as [|[k0 v0] r IH]; cbn [setitem].
  - intros [H|[]]. injection H as <- <-. right. split; [reflexivity | left; reflexivity].
  - destruct (feq k0 k) eqn:E.
    + intros [H|H].
      * injection H as <- <-. right. split; [reflexivity | right; exact E].
      * left. right. exact H.
    + intros [H|H].
      * left. left. exact H.
      * destruct (IH H) as [H'|H']; [left; right; exact H' | right; exact H'].
Qed.

Lemma setitem_length d k v : (List.length (setitem d k v) <= S (List.length d))%nat.
Proof.
  induction d as [|[k0 v0] r IH]; cbn [setitem List.length]; [lia|].
  destruct (feq k0 k); cbn [List.length]; lia.
Qed.

(** A well-formed dict holds one entry per key. *)
Lemma wf_unique d k1 v1 k2 v2 :
  wf d -> In (k1, v1) d -> In (k2, v2) d -> feq k1 k2 = true -> (k1, v1) = (k2, v2).
Proof.
  induction d as [|[k0 v0] r IH]; cbn [wf]; [intros _ []|].
  intros [H0 Hr] [E1|H1] [E2|H2] Heq.
  - congruence.
  - injection E1 as <- <-. rewrite (H0 _ _ H2) in Heq. discriminate.
  - injection E2 as <- <-. rewrite feq_sym, (H0 _ _ H1) in Heq. discriminate.
  - apply IH; assumption.
Qed.

End PyDict.

(** ** The GRASS session *)

(** A keyword argument of a GRASS command: a string, or [True]. *)
Inductive pyarg : Type :=
| Str (s : string)
| PyTrue.

(** A module call such as [gs.run_command('g.copy', raster=..., quiet=True)]:
    the module name and the keyword arguments in the order written. *)
Record command : Type := Command { prog : string; kwargs : list (string * pyarg) }.

(** What the script does that its user can observe: the messages it
    prints and the modules it runs against the raster store. *)
Inductive event : Type :=
| Verbose (msg : string)
| Message (msg : string)
| Warning (msg : string)
| Run (c : command).

Inductive exn : Type :=
| ValueError
| KeyError
| CalledModuleError.

(** How a call ends: it returns, [gs.fatal] stops the run with a message,
    or an exception that nothing catches unwinds it. *)
Inductive outcome (A : Type) : Type :=
| Return (a : A)
| Fatal (msg : string)
| Raise (e : exn).
Arguments Return {A} a.
Arguments Fatal {A} msg.
Arguments Raise {A} e.

(** The part of [gs.raster3d_info]'s answer that the script reads. *)
Record r3info : Type := R3Info { depths : Z }.

(** The parsed command line: [options] and [flags] of [gs.parser()]. *)
Record options : Type := Options {
  opt_input : string;
  opt_output : string;
  opt_colorspace : string;
  opt_statistic : string;
  opt_colorblind : string;
  opt_red_wavelength : string;
  opt_green_wavelength : string;
  opt_blue_wavelength : string;
  opt_cyan_wavelength : string;
  opt_magenta_wavelength : string;
  opt_yellow_wavelength : string;
  opt_key_wavelength : string
}.

Record flags : Type := Flags { flag_n : bool }.

(** A number in a Python tuple: the colour matrices mix [int] and [float]
    literals. *)
Inductive pynum : Type :=
| PInt (z : Z)
| PFloat (f : PyFloat.float).

(** What [calculate_statistic] returns first: an expression text, or the
    list of band names. *)
Inductive pyval : Type :=
| PStr (s : string)
| PList (l : list string).

(** The modules run, in order, among the events of a log. *)
Fixpoint runs (l : list event) : list command :=
  match l with
  | [] => []
  | Run c :: r => c :: runs r
  | _ :: r => runs r
  end.

(** The warnings, in order, among the events of a log. *)
Fixpoint warnings (l : list event) : list string :=
  match l with
  | [] => []
  | Warning m :: r => m :: warnings r
  | _ :: r => warnings r
  end.

Lemma runs_app l1 l2 : runs (l1 ++ l2) = runs l1 ++ runs l2.
Proof.
  induction l1 as [|[m|m|m|c] r IH]; cbn [runs app]; rewrite ?IH; reflexivity.
Qed.

Lemma warnings_app l1 l2 : warnings (l1 ++ l2) = warnings l1 ++ warnings l2.
Proof.
  induction l1 as [|[m|m|m|c] r IH]; cbn [warnings app]; rewrite ?IH; reflexivity.
Qed.

(** ** The script *)

Section Program.
Import PyFloat PyDict PySeq.
Local Open Scope string_scope.

(** The raster store of the GRASS session, and the library calls that
    reach it.  [raster3d_info] answers with the map's header or with the
    text of the exception it raises; [read_command] with the module's
    output, [None] when it raises; [run_command] with the store after
    the module ran, [None] when the module fails and [CalledModuleError]
    is raised. *)
Variable Store : Type.
Variable raster3d_info : Store -> string -> r3info + string.
Variable read_command : Store -> command -> option string.
Variable run_command : Store -> command -> option Store.

(** Python's [float(s)] on a string ([None] is its [ValueError]) and the
    text an f-string prints for a float. *)
Variable py_float : string -> option float.
Variable str_float : float -> string.

Record world : Type := World { store : Store; log : list event }.

(** Computations of the script: they read and change the session, and
    end in an [outcome]. *)
Definition M (A : Type) : Type := world -> outcome A * world.

Definition ret {A : Type} (a : A) : M A := fun w => (Return a, w).

Definition bind {A B : Type} (c : M A) (k : A -> M B) : M B :=
  fun w =>
    match c w with
    | (Return a, w') => k a w'
    | (Fatal msg, w') => (Fatal msg, w')
    | (Raise e, w') => (Raise e, w')
    end.

Notation "x <- c ;; k" := (bind c (fun x => k))
  (at level 61, c at next level, right associativity).
Notation "c ;;; k" := (bind c (fun _ => k))
  (at level 61, right associativity).

Definition emit (e : event) : M unit :=
  fun w => (Return tt, World (store w) (log w ++ [e])%list).

(** [gs.verbose], [gs.message], [gs.warning], [gs.fatal] *)
Definition verbose (msg : string) : M unit := emit (Verbose msg).
Definition message (msg : string) : M unit := emit (Message msg).
Definition warning (msg : string) : M unit := emit (Warning msg).
Definition fatal {A : Type} (msg : string) : M A := fun w => (Fatal msg, w).

Definition raise {A : Type} (e : exn) : M A := fun w => (Raise e, w).

Definition get_store : M Store := fun w => (Return (store w), w).

(** [gs.run_command(...)]: the call is logged; the store is the one the
    module leaves, when it succeeds. *)
Definition gs_run_command (c : command) : M unit :=
  fun w =>
    match run_command (store w) c with
    | Some st' => (Return tt, World st' (log w ++ [Run c])%list)
    | None => (Raise CalledModuleError, World (store w) (log w ++ [Run c])%list)
    end.

(** [float(s)] in the script's own frames, where nothing catches the
    [ValueError]. *)
Definition to_float (s : string) : M float :=
  match py_float s with
  | Some f => ret f
  | None => raise ValueError
  end.

(** [get_raster3d_info] *)
Definition get_raster3d_info (raster3d : string) : M r3info :=
  fun w =>
    match raster3d_info (store w) raster3d with
    | inl info => (Return info, w)
    | inr e => fatal ("Cannot get info for 3D raster " ++ raster3d ++ ": " ++ e) w
    end.

(** [f"{raster3d}#{i}"] *)
Definition band_name (raster3d : string) (i : Z) : string :=
  raster3d ++ "#" ++ PyStr.str_int i.

(** The scan of one band's metadata lines: the first line that holds
    "wavelength" in any case and splits at '=' in exactly two parts
    decides; its value parses, or [float] raises and the band is left. *)
Inductive line_scan : Type :=
| NoWavelength
| ParseError
| Wavelength (wl : float).

Fixpoint scan_lines (lines : list string) : line_scan :=
  match lines with
  | [] => NoWavelength
  | line :: rest =>
      if PyStr.contains "wavelength" (PyStr.lower line) then
        match PyStr.split "=" line with
        | [_; value] =>
            match py_float (PyStr.strip value) with
            | Some wl => Wavelength wl
            | None => ParseError
            end
        | _ => scan_lines rest
        end
      else scan_lines rest
  end.

(** The wavelength that the body of the [try] records for band [i], if
    any: nothing when [r.support] fails, when no line qualifies, or when
    the value does not parse. *)
Definition band_wavelength (st : Store) (raster3d : string) (i : Z) : option float :=
  match read_command st
          (Command "r.support" [("map", Str (band_name raster3d i)); ("flags", Str "n")]) with
  | None => None
  | Some metadata =>
      match scan_lines (PyStr.split PyStr.newline metadata) with
      | Wavelength wl => Some wl
      | _ => None
      end
  end.

(** One turn of the loop over the bands. *)
Definition scan_band (st : Store) (raster3d : string) (wavelengths : dict) (i : Z) : dict :=
  match band_wavelength st raster3d i with
  | Some wl => setitem wavelengths wl i
  | None => wavelengths
  end.

(** The loop [for i in range(1, depths + 1)], from the empty dict. *)
Definition scan_wavelengths (st : Store) (raster3d : string) (depths : Z) : dict :=
  fold_left (scan_band st raster3d) (range 1 (depths + 1)) [].

(** [{float(i): i for i in range(1, depths + 1)}] *)
Definition band_numbers (depths : Z) : dict :=
  fold_left (fun d i => setitem d (of_int i) i) (range 1 (depths + 1)) [].

(** [get_band_wavelengths] *)
Definition get_band_wavelengths (raster3d : string) : M dict :=
  info <- get_raster3d_info raster3d ;;
  let depths := depths info in
  verbose ("Scanning " ++ PyStr.str_int depths ++ " bands for wavelength metadata...") ;;;
  st <- get_store ;;
  let wavelengths := scan_wavelengths st raster3d depths in
  match wavelengths with
  | [] =>
      warning "No wavelength metadata found. Using band numbers as wavelengths." ;;;
      ret (band_numbers depths)
  | _ => ret wavelengths
  end.

(** [find_closest_band]: the key object that [min] picks, the value the
    dict holds for it, and the key's value. *)
Definition find_closest_band (target_wavelength : float) (wavelengths : dict)
  : exn + (Z * float) :=
  match py_min (fun x : key_obj => fabs (fsub (snd x) target_wavelength))
               (keys wavelengths) with
  | None => inl ValueError
  | Some closest_wl =>
      match getitem_obj wavelengths closest_wl with
      | None => inl KeyError
      | Some band => inr (band, snd closest_wl)
      end
  end.

Definition lift {A : Type} (r : exn + A) : M A :=
  match r with
  | inl e => raise e
  | inr a => ret a
  end.

(** [calculate_statistic] *)
Definition calculate_statistic (raster3d : string) (band_indices : list Z)
           (statistic : string) : M (pyval * option string) :=
  let temp_maps := map (fun idx => band_name raster3d idx) band_indices in
  if String.eqb statistic "mean" then
    let expr := "(" ++ PyStr.join " + " temp_maps ++ ") / " ++ PyStr.str_int (len temp_maps) in
    ret (PStr expr, None)
  else if String.eqb statistic "median" then ret (PList temp_maps, Some "median")
  else if String.eqb statistic "mode" then ret (PList temp_maps, Some "mode")
  else if String.eqb statistic "min" then ret (PList temp_maps, Some "minimum")
  else if String.eqb statistic "max" then ret (PList temp_maps, Some "maximum")
  else if PyStr.startswith statistic "sd" then ret (PList temp_maps, Some statistic)
  else fatal ("Unknown statistic: " ++ statistic).

(** The decimal literal [n/d] as the nearest binary64 value. *)
Definition dec (n d : Z) : pynum := PFloat (SFdiv prec emax (of_int n) (of_int d)).

Definition adjustments : list (string * list (string * (pynum * pynum * pynum))) :=
  [ ("protanopia",
     [ ("red", (dec 567 1000, dec 433 1000, PInt 0));
       ("green", (dec 558 1000, dec 442 1000, PInt 0));
       ("blue", (PInt 0, dec 242 1000, dec 758 1000)) ]);
    ("deuteranopia",
     [ ("red", (dec 625 1000, dec 375 1000, PInt 0));
       ("green", (dec 7 10, dec 3 10, PInt 0));
       ("blue", (PInt 0, dec 3 10, dec 7 10)) ]);
    ("tritanopia",
     [ ("red", (dec 95 100, dec 5 100, PInt 0));
       ("green", (PInt 0, dec 433 1000, dec 567 1000));
       ("blue", (PInt 0, dec 475 1000, dec 525 1000)) ]) ].

(** [k in d] for a dict with string keys. *)
Definition has_key {V : Type} (k : string) (d : list (string * V)) : bool :=
  existsb (fun kv => String.eqb (fst kv) k) d.

(** [apply_colorblind_adjustment] *)
Definition apply_colorblind_adjustment (channels : list string) (colorblind_type : string)
  : M (list string) :=
  if negb (has_key colorblind_type adjustments) then ret channels
  else
    message ("Applying " ++ colorblind_type ++ " color adjustments...") ;;;
    warning ("Colorblind adjustment for " ++ colorblind_type
             ++ " selected but requires post-processing") ;;;
    ret channels.

Definition g_copy (input_band output_map : string) : command :=
  Command "g.copy" [("raster", Str (input_band ++ "," ++ output_map)); ("quiet", PyTrue)].

Definition r_rescale (output_map : string) : command :=
  Command "r.rescale"
          [("input", Str output_map); ("output", Str output_map); ("to", Str "0,255");
           ("overwrite", PyTrue); ("quiet", PyTrue)].

Definition i_group (group_name : string) (output_maps : list string) : command :=
  Command "i.group"
          [("group", Str group_name); ("subgroup", Str group_name);
           ("input", Str (PyStr.join "," output_maps))].

(** The loop [for color, band in channels.items()] of both composite
    functions; [output_maps] is the list it appends to. *)
Fixpoint create_channels (input_raster output_base : string) (normalize : bool)
         (channels : list (string * Z)) (output_maps : list string) : M (list string) :=
  match channels with
  | [] => ret output_maps
  | (color, band) :: rest =>
      let output_map := output_base ++ "_" ++ color in
      let input_band := band_name input_raster band in
      message ("Creating " ++ color ++ " channel: " ++ output_map) ;;;
      gs_run_command (g_copy input_band output_map) ;;;
      (if normalize then gs_run_command (r_rescale output_map) else ret tt) ;;;
      create_channels input_raster output_base normalize rest (output_maps ++ [output_map])%list
  end.

(** [create_rgb_composite] *)
Definition create_rgb_composite (options : options) (flags : flags) : M unit :=
  let input_raster := opt_input options in
  let output_base := opt_output options in
  let statistic := opt_statistic options in
  let colorblind := opt_colorblind options in
  let normalize := flag_n flags in
  wavelengths <- get_band_wavelengths input_raster ;;
  message ("Found " ++ PyStr.str_int (len wavelengths) ++ " wavelength bands") ;;;
  red_wl <- to_float (opt_red_wavelength options) ;;
  green_wl <- to_float (opt_green_wavelength options) ;;
  blue_wl <- to_float (opt_blue_wavelength options) ;;
  red <- lift (find_closest_band red_wl wavelengths) ;;
  green <- lift (find_closest_band green_wl wavelengths) ;;
  blue <- lift (find_closest_band blue_wl wavelengths) ;;
  let '(red_band, actual_red) := red in
  let '(green_band, actual_green) := green in
  let '(blue_band, actual_blue) := blue in
  message ("Selected bands - R: " ++ str_float actual_red ++ "nm (band "
           ++ PyStr.str_int red_band ++ "), "
           ++ "G: " ++ str_float actual_green ++ "nm (band "
           ++ PyStr.str_int green_band ++ "), "
           ++ "B: " ++ str_float actual_blue ++ "nm (band "
           ++ PyStr.str_int blue_band ++ ")") ;;;
  let channels := [("red", red_band); ("green", green_band); ("blue", blue_band)] in
  output_maps <- create_channels input_raster output_base normalize channels [] ;;
  (if negb (String.eqb colorblind "none")
   then apply_colorblind_adjustment output_maps colorblind ;;; ret tt
   else ret tt) ;;;
  let group_name := output_base ++ "_rgb" in
  gs_run_command (i_group group_name output_maps) ;;;
  message ("Created RGB image group: " ++ group_name) ;;;
  message ("Individual bands: " ++ PyStr.join ", " output_maps).

(** [create_cmyk_composite] *)
Definition create_cmyk_composite (options : options) (flags : flags) : M unit :=
  let input_raster := opt_input options in
  let output_base := opt_output options in
  let statistic := opt_statistic options in
  let normalize := flag_n flags in
  wavelengths <- get_band_wavelengths input_raster ;;
  message ("Found " ++ PyStr.str_int (len wavelengths) ++ " wavelength bands") ;;;
  cyan_wl <- to_float (opt_cyan_wavelength options) ;;
  magenta_wl <- to_float (opt_magenta_wavelength options) ;;
  yellow_wl <- to_float (opt_yellow_wavelength options) ;;
  key_wl <- to_float (opt_key_wavelength options) ;;
  cyan <- lift (find_closest_band cyan_wl wavelengths) ;;
  magenta <- lift (find_closest_band magenta_wl wavelengths) ;;
  yellow <- lift (find_closest_band yellow_wl wavelengths) ;;
  key <- lift (find_closest_band key_wl wavelengths) ;;
  let '(cyan_band, actual_cyan) := cyan in
  let '(magenta_band, actual_magenta) := magenta in
  let '(yellow_band, actual_yellow) := yellow in
  let '(key_band, actual_key) := key in
  message ("Selected bands - C: " ++ str_float actual_cyan ++ "nm (band "
           ++ PyStr.str_int cyan_band ++ "), "
           ++ "M: " ++ str_float actual_magenta ++ "nm (band "
           ++ PyStr.str_int magenta_band ++ "), "
           ++ "Y: " ++ str_float actual_yellow ++ "nm (band "
           ++ PyStr.str_int yellow_band ++ "), "
           ++ "K: " ++ str_float actual_key ++ "nm (band "
           ++ PyStr.str_int key_band ++ ")") ;;;
  let channels := [("cyan", cyan_band); ("magenta", magenta_band);
                   ("yellow", yellow_band); ("key", key_band)] in
  output_maps <- create_channels input_raster output_base normalize channels [] ;;
  let group_name := output_base ++ "_cmyk" in
  gs_run_command (i_group group_name output_maps) ;;;
  message ("Created CMYK image group: " ++ group_name) ;;;
  message ("Individual bands: " ++ PyStr.join ", " output_maps).

(** [main] *)
Definition main (options : options) (flags : flags) : M unit :=
  let colorspace := opt_colorspace options in
  message ("Creating " ++ PyStr.upper colorspace ++ " composite...") ;;;
  (if String.eqb colorspace "rgb" then create_rgb_composite options flags
   else if String.eqb colorspace "cmyk" then create_cmyk_composite options flags
   else fatal ("Unknown colorspace: " ++ colorspace)) ;;;
  message "Composite creation complete!".


(** ** Band selection *)

(** The key function of [find_closest_band]: [abs(x - target)]. *)
Definition distance (target_wavelength x : float) : float :=
  fabs (fsub x target_wavelength).

(** What [find_closest_band] returns on a non-empty dict, in full: an
    entry of the dict; no entry before it is as close or closer, no
    entry at all is closer. *)
Lemma find_closest_band_spec (target_wavelength : float) (wavelengths : dict) :
  wf wavelengths -> wavelengths <> [] ->
  exists band closest_wl l1 l2,
    find_closest_band target_wavelength wavelengths = inr (band, closest_wl) /\
    wavelengths = (l1 ++ (closest_wl, band) :: l2)%list /\
    (forall k b, In (k, b) l1 ->
       fle (distance target_wavelength k) (distance target_wavelength closest_wl) = false) /\
    (forall k b, In (k, b) wavelengths ->
       flt (distance target_wavelength k) (distance target_wavelength closest_wl) = false).
Proof.
  intros Hwf Hne. unfold find_closest_band.
  destruct (py_min_nonempty (fun x : key_obj => fabs (fsub (snd x) target_wavelength))
              (keys wavelengths) (keys_nonempty _ Hne)) as [o Ho].
  rewrite Ho.
  destruct (py_min_first _ _ _ Ho) as (l1' & l2' & Hs & Hfirst & Hmin).
  destruct (keys_from_split _ _ _ _ _ Hs) as (l1 & v & l2 & Hd & Hm & Hg).
  unfold getitem_obj. rewrite (Hg Hwf).
  exists v, (snd o), l1, l2. split; [reflexivity|]. split; [exact Hd|]. split.
  - intros k b Hin.
    assert (Hk : In k (map snd l1')).
    { rewrite <- Hm. change k with (fst (k, b)). apply in_map. exact Hin. }
    apply in_map_iff in Hk. destruct Hk as [x [<- Hx]].
    apply (Hfirst x Hx).
  - intros k b Hin.
    destruct (in_keys_from 0 _ _ _ Hin) as [p Hp].
    apply (Hmin (p, k) Hp).
Qed.

(** No float is at a NaN distance and tied with itself. *)
Lemma distance_tie_not_nan (t k : float) :
  feq (distance t k) (distance t k) = true -> fle k k = true.
Proof.
  destruct k as [s|s| |s m e]; try (destruct s; reflexivity).
  - destruct t; discriminate.
  - intros _. apply fle_below. right. unfold same. rewrite SFcompare_finite.
    assert (E : cmp_em e m e m = Eq) by (apply cmp_em_Eq; auto).
    rewrite E. destruct s; reflexivity.
Qed.

(** On a non-empty dict [find_closest_band] raises nothing. *)
Lemma find_closest_band_returns (target_wavelength : float) (wavelengths : dict) :
  wf wavelengths -> wavelengths <> [] ->
  exists band closest_wl,
    find_closest_band target_wavelength wavelengths = inr (band, closest_wl).
Proof.
  intros Hwf Hne.
  destruct (find_closest_band_spec target_wavelength wavelengths Hwf Hne)
    as (band & closest_wl & _ & _ & Hf & _).
  exists band, closest_wl. exact Hf.
Qed.

(** C1. On a non-empty catalog, for any target wavelength (finite or
    not), [find_closest_band] returns a pair [(band, closest_wl)] where
    [closest_wl] is a key of the catalog, [band] is the value the
    catalog holds for it (the value of its entry, and what
    [wavelengths[closest_wl]] gives for any key that is not NaN), and no
    key of the catalog is at a strictly smaller [abs(key - target)]. *)
Theorem find_closest_band_closest (target_wavelength : float) (wavelengths : dict) :
  wf wavelengths -> wavelengths <> [] ->
  exists band closest_wl,
    find_closest_band target_wavelength wavelengths = inr (band, closest_wl) /\
    In (closest_wl, band) wavelengths /\
    (feq closest_wl closest_wl = true -> getitem wavelengths closest_wl = Some band) /\
    (forall k b, In (k, b) wavelengths ->
       flt (fabs (fsub k target_wavelength))
           (fabs (fsub closest_wl target_wavelength)) = false).
Proof.
  intros Hwf Hne.
  destruct (find_closest_band_spec target_wavelength wavelengths Hwf Hne)
    as (band & closest_wl & l1 & l2 & Hf & Hd & _ & Hmin).
  assert (Hin : In (closest_wl, band) wavelengths).
  { rewrite Hd. apply in_or_app. right. left. reflexivity. }
  exists band, closest_wl. split; [exact Hf|]. split; [exact Hin|]. split; [|exact Hmin].
  intros Hk. apply getitem_in; assumption.
Qed.

(** C2, as the script has it.  [find_closest_band] returns a key at the
    minimal distance from the target (no key of the catalog is strictly
    closer), and among the keys tied at that distance the one that
    entered the catalog first: every entry before the returned one is
    strictly farther from the target (or at a NaN distance).  When the
    catalog was filled in ascending key order, that key is the smallest
    of the tied keys. *)
Theorem find_closest_band_first_inserted (target_wavelength : float) (wavelengths : dict) :
  wf wavelengths -> wavelengths <> [] ->
  exists band closest_wl l1 l2,
    find_closest_band target_wavelength wavelengths = inr (band, closest_wl) /\
    wavelengths = (l1 ++ (closest_wl, band) :: l2)%list /\
    (forall k b, In (k, b) wavelengths ->
       flt (fabs (fsub k target_wavelength))
           (fabs (fsub closest_wl target_wavelength)) = false) /\
    (forall k b, In (k, b) l1 ->
       fle (fabs (fsub k target_wavelength))
           (fabs (fsub closest_wl target_wavelength)) = false) /\
    (ascending wavelengths ->
     forall k b, In (k, b) wavelengths ->
       feq (fabs (fsub k target_wavelength))
           (fabs (fsub closest_wl target_wavelength)) = true ->
       fle closest_wl k = true).
Proof.
  intros Hwf Hne.
  destruct (find_closest_band_spec target_wavelength wavelengths Hwf Hne)
    as (band & closest_wl & l1 & l2 & Hf & Hd & Hfirst & Hmin).
  exists band, closest_wl, l1, l2.
  split; [exact Hf|]. split; [exact Hd|]. split; [exact Hmin|]. split; [exact Hfirst|].
  intros Hasc k b Hin Htie.
  rewrite Hd in Hin, Hasc. apply in_app_or in Hin. destruct Hin as [Hin|[Heq|Hin]].
  - apply feq_fle in Htie. unfold distance in Hfirst. rewrite (Hfirst _ _ Hin) in Htie.
    discriminate.
  - injection Heq as <- _. apply (distance_tie_not_nan target_wavelength). exact Htie.
  - apply flt_fle. eapply ascending_split; eauto.
Qed.

(** ** The catalog *)

(** The dict display [{k1: v1, ..., kn: vn}]: the pairs are stored from
    left to right. *)
Definition dict_display (items : list (float * Z)) : dict :=
  fold_left (fun d kv => setitem d (fst kv) (snd kv)) items [].

(** The pairs [1.0: 1, 2.0: 2, ..., N.0: N]. *)
Definition band_number_items (N : Z) : list (float * Z) :=
  map (fun i => (of_int i, i)) (range 1 (N + 1)).

Lemma fold_left_map {A B C : Type} (f : A -> B -> A) (g : C -> B) (l : list C) (a : A) :
  fold_left f (map g l) a = fold_left (fun x c => f x (g c)) l a.
Proof. revert a. induction l as [|c r IH]; intros a; cbn; [reflexivity | apply IH]. Qed.

(** The comprehension of the fallback is the display of those pairs. *)
Lemma band_numbers_display (N : Z) :
  band_numbers N = dict_display (band_number_items N).
Proof. unfold band_numbers, dict_display, band_number_items. rewrite fold_left_map. reflexivity. Qed.

(** Below [2^53] the synthetic wavelengths are all different, so the
    display has exactly the [N] entries, in band order. *)
Lemma band_number_items_distinct (N : Z) :
  N < 2 ^ 53 -> dict_display (band_number_items N) = band_number_items N.
Proof.
  intros HN. destruct (Z.le_gt_cases N 0) as [H0|H0].
  - unfold band_number_items. rewrite range_empty by lia. reflexivity.
  - replace N with (Z.of_nat (Z.to_nat N)) in * by lia.
    induction (Z.to_nat N) as [|n IH]; [lia|].
    destruct n as [|n].
    + reflexivity.
    + unfold band_number_items in *.
      replace (Z.of_nat (S (S n)) + 1) with (Z.of_nat (S n) + 1 + 1) by lia.
      rewrite range_snoc, map_app by lia. cbn [map].
      unfold dict_display in *. rewrite fold_left_app. cbn [fold_left fst snd].
      rewrite IH by lia.
      apply setitem_fresh. intros k' v' Hin.
      apply in_map_iff in Hin. destruct Hin as [i [E Hi]].
      injection E as <- _. apply range_in in Hi.
      apply flt_not_feq, of_int_lt; lia.
Qed.

Lemma scan_band_nonempty st raster3d d i : d <> [] -> scan_band st raster3d d i <> [].
Proof.
  intros H. unfold scan_band. destruct (band_wavelength st raster3d i); [|exact H].
  apply setitem_nonempty.
Qed.

Lemma scan_fold_nonempty st raster3d l d :
  d <> [] -> fold_left (scan_band st raster3d) l d <> [].
Proof.
  revert d. induction l as [|i r IH]; intros d H; cbn [fold_left]; [exact H|].
  apply IH, scan_band_nonempty, H.
Qed.

(** The scan records nothing exactly when no band has a wavelength. *)
Lemma scan_wavelengths_empty st raster3d N :
  scan_wavelengths st raster3d N = [] <->
  (forall i, 1 <= i <= N -> band_wavelength st raster3d i = None).
Proof.
  unfold scan_wavelengths.
  assert (G : forall l, fold_left (scan_band st raster3d) l [] = [] <->
                        (forall i, In i l -> band_wavelength st raster3d i = None)).
  { induction l as [|i r IH]; cbn [fold_left].
    - split; [intros _ i [] | reflexivity].
    - unfold scan_band at 2. destruct (band_wavelength st raster3d i) as [wl|] eqn:E.
      + split.
        * intros H. exfalso. revert H. apply scan_fold_nonempty, setitem_nonempty.
        * intros H. specialize (H i (or_introl eq_refl)). congruence.
      + rewrite IH. split.
        * intros H j [<-|Hj]; [exact E | apply H; exact Hj].
        * intros H j Hj. apply H. right. exact Hj. }
  rewrite G. split; intros H i Hi; apply H; [apply range_in; lia | apply range_in in Hi; lia].
Qed.

Lemma scan_band_wf st raster3d d i : wf d -> wf (scan_band st raster3d d i).
Proof.
  intros H. unfold scan_band. destruct (band_wavelength st raster3d i); [|exact H].
  apply setitem_wf, H.
Qed.

Lemma scan_wavelengths_wf st raster3d N : wf (scan_wavelengths st raster3d N).
Proof.
  unfold scan_wavelengths.
  assert (G : forall l d, wf d -> wf (fold_left (scan_band st raster3d) l d)).
  { induction l as [|i r IH]; intros d H; cbn [fold_left]; [exact H|].
    apply IH, scan_band_wf, H. }
  apply G. exact I.
Qed.

Lemma band_numbers_wf N : wf (band_numbers N).
Proof.
  unfold band_numbers.
  assert (G : forall l d, wf d -> wf (fold_left (fun d i => setitem d (of_int i) i) l d)).
  { induction l as [|i r IH]; intros d H; cbn [fold_left]; [exact H|].
    apply IH, setitem_wf, H. }
  apply G. exact I.
Qed.

(** Bands that record no wavelength [==] [k] leave the lookup of [k]
    as it was. *)
Lemma scan_fold_getitem st raster3d k l : forall d,
  (forall i wl, In i l -> band_wavelength st raster3d i = Some wl -> feq wl k = false) ->
  getitem (fold_left (scan_band st raster3d) l d) k = getitem d k.
Proof.
  induction l as [|i r IH]; intros d H; cbn [fold_left]; [reflexivity|].
  rewrite IH by (intros j wl Hj; apply H; right; exact Hj).
  unfold scan_band. destruct (band_wavelength st raster3d i) as [wl|] eqn:E; [|reflexivity].
  apply getitem_setitem_other. apply (H i wl); [left; reflexivity | exact E].
Qed.

Definition scanning_message (depths : Z) : string :=
  "Scanning " ++ PyStr.str_int depths ++ " bands for wavelength metadata...".

Definition no_metadata_warning : string :=
  "No wavelength metadata found. Using band numbers as wavelengths.".

(** The two ways [get_band_wavelengths] returns. *)
Lemma get_band_wavelengths_scanned raster3d w info :
  raster3d_info (store w) raster3d = inl info ->
  scan_wavelengths (store w) raster3d (depths info) <> [] ->
  get_band_wavelengths raster3d w =
  (Return (scan_wavelengths (store w) raster3d (depths info)),
   World (store w) (log w ++ [Verbose (scanning_message (depths info))])%list).
Proof.
  intros Hinfo Hscan. unfold get_band_wavelengths, bind, get_raster3d_info.
  rewrite Hinfo. cbn [verbose emit get_store store log].
  destruct (scan_wavelengths (store w) raster3d (depths info)) eqn:E; [congruence|].
  reflexivity.
Qed.

Lemma get_band_wavelengths_synthetic raster3d w info :
  raster3d_info (store w) raster3d = inl info ->
  scan_wavelengths (store w) raster3d (depths info) = [] ->
  get_band_wavelengths raster3d w =
  (Return (band_numbers (depths info)),
   World (store w) (log w ++ [Verbose (scanning_message (depths info));
                              Warning no_metadata_warning])%list).
Proof.
  intros Hinfo Hscan. unfold get_band_wavelengths, bind, get_raster3d_info.
  rewrite Hinfo. cbn [verbose emit get_store store log].
  rewrite Hscan. cbn [warning emit ret store log].
  rewrite <- app_assoc. reflexivity.
Qed.

(** C3. When the scan of an N-band stack records no wavelength,
    [get_band_wavelengths] emits the warning that no metadata was found
    and returns the dict [{1.0: 1, ..., N.0: N}] and nothing else; for
    every band count below [2^53] these are exactly the [N] entries
    [(float(i), i)], in band order. *)
Theorem get_band_wavelengths_fallback (raster3d : string) (w : world) (info : r3info) :
  raster3d_info (store w) raster3d = inl info ->
  scan_wavelengths (store w) raster3d (depths info) = [] ->
  get_band_wavelengths raster3d w =
    (Return (dict_display (band_number_items (depths info))),
     World (store w) (log w ++ [Verbose (scanning_message (depths info));
                                Warning no_metadata_warning])%list) /\
  (depths info < 2 ^ 53 ->
   dict_display (band_number_items (depths info)) = band_number_items (depths info)).
Proof.
  intros Hinfo Hscan. split.
  - rewrite <- band_numbers_display. apply get_band_wavelengths_synthetic; assumption.
  - apply band_number_items_distinct.
Qed.

(** The band that records a wavelength last: from any band [j] that
    records it, there is a last one at or after [j]. *)
Lemma last_recording st raster3d (wj : float) (j : Z) :
  (exists w0, band_wavelength st raster3d j = Some w0 /\ feq w0 wj = true) ->
  forall (n : nat) (N : Z), N = j + Z.of_nat n ->
  exists last wl,
    j <= last <= N /\
    band_wavelength st raster3d last = Some wl /\ feq wl wj = true /\
    (forall j' w', last < j' <= N ->
       band_wavelength st raster3d j' = Some w' -> feq w' wj = false).
Proof.
  intros [w0 [Hj Hw0]]. induction n as [|n IH]; intros N HN.
  - exists j, w0. split; [lia|]. split; [exact Hj|]. split; [exact Hw0|].
    intros j' w' Hj'. lia.
  - assert (Hprev : exists last wl,
               j <= last <= N - 1 /\
               band_wavelength st raster3d last = Some wl /\ feq wl wj = true /\
               (forall j' w', last < j' <= N - 1 ->
                  band_wavelength st raster3d j' = Some w' -> feq w' wj = false))
      by (apply IH; lia).
    destruct Hprev as (last & wl & Hr & Hl & Hwl & Hafter).
    destruct (band_wavelength st raster3d N) as [wN|] eqn:EN.
    + destruct (feq wN wj) eqn:EwN.
      * exists N, wN. split; [lia|]. split; [exact EN|]. split; [exact EwN|].
        intros j' w' Hj'. lia.
      * exists last, wl. split; [lia|]. split; [exact Hl|]. split; [exact Hwl|].
        intros j' w' Hj' Hw'. destruct (Z.eq_dec j' N) as [->|Hne].
        -- rewrite EN in Hw'. injection Hw' as <-. exact EwN.
        -- apply (Hafter j' w'); [lia | exact Hw'].
    + exists last, wl. split; [lia|]. split; [exact Hl|]. split; [exact Hwl|].
      intros j' w' Hj' Hw'. destruct (Z.eq_dec j' N) as [->|Hne].
      -- rewrite EN in Hw'. discriminate.
      -- apply (Hafter j' w'); [lia | exact Hw'].
Qed.

(** After the scan, a wavelength maps to the band that recorded it last. *)
Lemma scan_wavelengths_last st raster3d N last (wl : float) :
  1 <= last <= N ->
  band_wavelength st raster3d last = Some wl ->
  (forall j' w', last < j' <= N ->
     band_wavelength st raster3d j' = Some w' -> feq w' wl = false) ->
  forall k, feq wl k = true -> getitem (scan_wavelengths st raster3d N) k = Some last.
Proof.
  intros Hr Hl Hafter k Hk. unfold scan_wavelengths.
  rewrite (range_split 1 last (N + 1)) by lia.
  rewrite (range_cons last (N + 1)) by lia.
  rewrite fold_left_app. cbn [fold_left].
  rewrite scan_fold_getitem.
  - unfold scan_band at 1. rewrite Hl. apply getitem_setitem_same. exact Hk.
  - intros j' w' Hin Hw'. apply range_in in Hin.
    destruct (feq w' k) eqn:C; [|reflexivity].
    rewrite feq_sym in Hk.
    rewrite <- (Hafter j' w' ltac:(lia) Hw'). symmetry.
    eapply feq_trans; [exact C | exact Hk].
Qed.

(** C4. When bands [i < j] both record the same wavelength (their
    values are [==]), the catalog maps that wavelength to the band that
    recorded it last: a band at or after [j], never [i], and [j] itself
    when no band after [j] records it again. *)
Theorem get_band_wavelengths_last_wins
        (raster3d : string) (w : world) (info : r3info) (i j : Z) (wi wj : float) :
  raster3d_info (store w) raster3d = inl info ->
  1 <= i -> i < j -> j <= depths info ->
  band_wavelength (store w) raster3d i = Some wi ->
  band_wavelength (store w) raster3d j = Some wj ->
  feq wi wj = true ->
  exists catalog w' last,
    get_band_wavelengths raster3d w = (Return catalog, w') /\
    j <= last <= depths info /\
    (exists wl, band_wavelength (store w) raster3d last = Some wl /\ feq wl wj = true) /\
    (forall j' w', last < j' <= depths info ->
       band_wavelength (store w) raster3d j' = Some w' -> feq w' wj = false) /\
    getitem catalog wi = Some last /\
    getitem catalog wj = Some last /\
    ((forall j' w', j < j' <= depths info ->
        band_wavelength (store w) raster3d j' = Some w' -> feq w' wj = false) ->
     last = j).
Proof.
  intros Hinfo Hi Hij Hj Ei Ej Hsame.
  set (st := store w) in *. set (N := depths info) in *.
  assert (Hjj : feq wj wj = true).
  { eapply feq_trans; [|exact Hsame]. rewrite feq_sym. exact Hsame. }
  destruct (last_recording st raster3d wj j (ex_intro _ wj (conj Ej Hjj))
              (Z.to_nat (N - j)) N ltac:(lia))
    as (last & wl & Hr & Hl & Hwl & Hafter).
  assert (Hlj : feq wj wl = true) by (rewrite feq_sym; exact Hwl).
  assert (Hafter' : forall j' w', last < j' <= N ->
            band_wavelength st raster3d j' = Some w' -> feq w' wl = false).
  { intros j' w' Hj' Hw'. destruct (feq w' wl) eqn:C; [|reflexivity].
    rewrite <- (Hafter j' w' Hj' Hw'). symmetry. eapply feq_trans; [exact C | exact Hwl]. }
  pose proof (scan_wavelengths_last st raster3d N last wl ltac:(lia) Hl Hafter') as Hscan.
  assert (Hne : scan_wavelengths st raster3d N <> []).
  { intros C. specialize (Hscan wj Hwl). rewrite C in Hscan. discriminate. }
  exists (scan_wavelengths st raster3d N). eexists. exists last.
  split; [exact (get_band_wavelengths_scanned raster3d w info Hinfo Hne)|].
  split; [exact Hr|]. split; [exists wl; split; assumption|]. split; [exact Hafter|].
  split; [apply Hscan; eapply feq_trans; [exact Hwl | rewrite feq_sym; exact Hsame]|].
  split; [apply Hscan; exact Hwl|].
  intros Hnone. destruct (Z.eq_dec last j) as [E|E]; [exact E|].
  rewrite (Hnone last wl ltac:(lia) Hl) in Hwl. discriminate.
Qed.

(** ** Statistics *)

(** The text [b1 + b2 + ... + bk]. *)
Fixpoint sum_text (bands : list string) : string :=
  match bands with
  | [] => ""
  | b :: rest =>
      match rest with
      | [] => b
      | _ :: _ => b ++ " + " ++ sum_text rest
      end
  end.

(** The text [(b1 + b2 + ... + bk) / k]. *)
Definition mean_expression (bands : list string) : string :=
  "(" ++ sum_text bands ++ ") / " ++ PyStr.str_int (Z.of_nat (List.length bands)).

Lemma join_sum_text bands : PyStr.join " + " bands = sum_text bands.
Proof.
  unfold PyStr.join. induction bands as [|b rest IH]; [reflexivity|].
  cbn [String.concat sum_text]. destruct rest as [|b' rest']; [reflexivity|].
  rewrite IH. reflexivity.
Qed.

(** The statistics that [calculate_statistic] names one by one. *)
Definition named_statistics : list string := ["mean"; "median"; "mode"; "min"; "max"].

(** The values the [statistic] option accepts. *)
Definition enumerated_statistics : list string :=
  ["mean"; "median"; "mode"; "min"; "max";
   "sd1_pos"; "sd2_pos"; "sd3_pos"; "sd1_neg"; "sd2_neg"; "sd3_neg"].

Lemma startswith_sd_not_named statistic :
  PyStr.startswith statistic "sd" = true ->
  String.eqb statistic "mean" = false /\ String.eqb statistic "median" = false /\
  String.eqb statistic "mode" = false /\ String.eqb statistic "min" = false /\
  String.eqb statistic "max" = false.
Proof.
  unfold PyStr.startswith.
  destruct statistic as [|a [|b r]]; cbn [prefix]; try discriminate.
  - destruct (ascii_dec "s" a); discriminate.
  - destruct (ascii_dec "s" a) as [<-|]; [|discriminate].
    intros _. repeat split; reflexivity.
Qed.

(** C5. With the statistic "mean", [calculate_statistic] returns the
    text [(b1 + b2 + ... + bk) / k] over the band names [b1 .. bk] of
    the band indices it was given (each [<raster3d>#<index>]), and
    [None] in place of a method name; it prints nothing and runs
    nothing. *)
Theorem calculate_statistic_mean (raster3d : string) (band_indices : list Z) (w : world) :
  calculate_statistic raster3d band_indices "mean" w =
  (Return (PStr (mean_expression (map (band_name raster3d) band_indices)), None), w).
Proof.
  unfold calculate_statistic, mean_expression. cbn [String.eqb Ascii.eqb Bool.eqb].
  rewrite join_sum_text. unfold len, ret. reflexivity.
Qed.

(** C6, as the script has it.  A statistic that is none of mean,
    median, mode, min, max and does not start with "sd" stops the run
    with the unknown-statistic message; nothing is returned, printed or
    run. *)
Theorem calculate_statistic_unknown
        (raster3d : string) (band_indices : list Z) (statistic : string) (w : world) :
  ~ In statistic named_statistics ->
  PyStr.startswith statistic "sd" = false ->
  calculate_statistic raster3d band_indices statistic w =
  (Fatal ("Unknown statistic: " ++ statistic), w).
Proof.
  intros Hnamed Hsd. unfold calculate_statistic.
  assert (H : forall s, In s named_statistics -> String.eqb statistic s = false).
  { intros s Hs. apply String.eqb_neq. intros ->. exact (Hnamed Hs). }
  rewrite !H by (cbn [named_statistics In]; auto 10). rewrite Hsd. reflexivity.
Qed.

(** C10. Every statistic that starts with "sd", inside the enumerated
    set or not, makes [calculate_statistic] return the band names with
    the statistic itself as the method name; the run is not stopped. *)
Theorem calculate_statistic_sd
        (raster3d : string) (band_indices : list Z) (statistic : string) (w : world) :
  PyStr.startswith statistic "sd" = true ->
  calculate_statistic raster3d band_indices statistic w =
  (Return (PList (map (band_name raster3d) band_indices), Some statistic), w).
Proof.
  intros Hsd. unfold calculate_statistic.
  destruct (startswith_sd_not_named statistic Hsd) as (E1 & E2 & E3 & E4 & E5).
  rewrite E1, E2, E3, E4, E5, Hsd. reflexivity.
Qed.

(** ** The colorblind step *)

Definition colorblind_modes : list string := ["protanopia"; "deuteranopia"; "tritanopia"].

Definition colorblind_warning (colorblind_type : string) : string :=
  "Colorblind adjustment for " ++ colorblind_type ++ " selected but requires post-processing".

(** What [apply_colorblind_adjustment] prints. *)
Definition colorblind_events (colorblind_type : string) : list event :=
  if has_key colorblind_type adjustments
  then [Message ("Applying " ++ colorblind_type ++ " color adjustments...");
        Warning (colorblind_warning colorblind_type)]
  else [].

Lemma has_key_adjustments colorblind_type :
  has_key colorblind_type adjustments = true <-> In colorblind_type colorblind_modes.
Proof.
  unfold has_key, adjustments, colorblind_modes. cbn [existsb fst In].
  rewrite !orb_true_iff, !String.eqb_eq.
  split; (intros [H|[H|[H|H]]];
          [left; exact H | right; left; exact H | right; right; left; exact H | ]).
  - discriminate H.
  - destruct H.
Qed.

(** [apply_colorblind_adjustment] returns the channels as they came and
    leaves the store alone; it only prints. *)
Lemma apply_colorblind_adjustment_run (channels : list string) (colorblind_type : string)
      (w : world) :
  apply_colorblind_adjustment channels colorblind_type w =
  (Return channels, World (store w) (log w ++ colorblind_events colorblind_type)%list).
Proof.
  unfold apply_colorblind_adjustment, colorblind_events.
  destruct (has_key colorblind_type adjustments); cbn [negb].
  - unfold bind, message, warning, emit, ret. cbn [store log].
    rewrite <- app_assoc. reflexivity.
  - unfold ret. rewrite app_nil_r. destruct w; reflexivity.
Qed.

Lemma colorblind_events_runs colorblind_type : runs (colorblind_events colorblind_type) = [].
Proof. unfold colorblind_events. destruct (has_key _ _); reflexivity. Qed.

(** ** Assembly *)

Lemma bind_return {A B : Type} (c : M A) (k : A -> M B) (w w' : world) (a : A) :
  c w = (Return a, w') -> bind c k w = k a w'.
Proof. intros H. unfold bind. rewrite H. reflexivity. Qed.

(** The store accepts every module call. *)
Definition store_accepts : Prop := forall st c, run_command st c <> None.

Lemma gs_run_command_ok (c : command) (w : world) :
  store_accepts ->
  exists st', gs_run_command c w = (Return tt, World st' (log w ++ [Run c])%list).
Proof.
  intros Hok. unfold gs_run_command.
  destruct (run_command (store w) c) as [st'|] eqn:E; [|exfalso; exact (Hok _ _ E)].
  exists st'. reflexivity.
Qed.

(** [f"{output_base}_{color}"] *)
Definition output_name (output_base color : string) : string :=
  output_base ++ "_" ++ color.

(** What one turn of the channel loop prints and runs. *)
Definition channel_events (input_raster output_base : string) (normalize : bool)
           (channel : string * Z) : list event :=
  let output_map := output_name output_base (fst channel) in
  ([Message ("Creating " ++ fst channel ++ " channel: " ++ output_map);
    Run (g_copy (band_name input_raster (snd channel)) output_map)]
   ++ (if normalize then [Run (r_rescale output_map)] else []))%list.

Lemma create_channels_ok input_raster output_base normalize :
  store_accepts ->
  forall channels output_maps w,
  exists st',
    create_channels input_raster output_base normalize channels output_maps w =
    (Return (output_maps ++ map (fun ch => output_name output_base (fst ch)) channels)%list,
     World st' (log w ++ flat_map (channel_events input_raster output_base normalize)
                                  channels)%list).
Proof.
  intros Hok. induction channels as [|[color band] rest IH]; intros output_maps w.
  - exists (store w). cbn [create_channels map flat_map]. unfold ret.
    rewrite !app_nil_r. destruct w; reflexivity.
  - cbn [create_channels].
    change (output_base ++ "_" ++ color) with (output_name output_base color).
    set (output_map := output_name output_base color).
    unfold bind at 1. unfold message, emit.
    set (w1 := World (store w) _).
    destruct (gs_run_command_ok (g_copy (band_name input_raster band) output_map) w1 Hok)
      as [st2 E2].
    unfold bind at 1. rewrite E2.
    set (w2 := World st2 _).
    destruct normalize.
    + destruct (gs_run_command_ok (r_rescale output_map) w2 Hok) as [st3 E3].
      unfold bind at 1. rewrite E3.
      destruct (IH (output_maps ++ [output_map])%list
                   (World st3 (log w2 ++ [Run (r_rescale output_map)])%list))
        as [st' E'].
      exists st'. rewrite E'. f_equal.
      * rewrite <- app_assoc. reflexivity.
      * f_equal. subst w2 w1 output_map. cbn [log flat_map channel_events fst snd].
        rewrite <- !app_assoc. reflexivity.
    + unfold bind at 1. unfold ret.
      destruct (IH (output_maps ++ [output_map])%list w2) as [st' E'].
      exists st'. rewrite E'. f_equal.
      * rewrite <- app_assoc. reflexivity.
      * f_equal. subst w2 w1 output_map. cbn [log flat_map channel_events fst snd].
        rewrite <- !app_assoc. reflexivity.
Qed.

(** What [get_band_wavelengths] prints: the scan message, and the
    warning when the scan recorded nothing. *)
Definition catalog_events (st : Store) (raster3d : string) (depths : Z) : list event :=
  match scan_wavelengths st raster3d depths with
  | [] => [Verbose (scanning_message depths); Warning no_metadata_warning]
  | _ => [Verbose (scanning_message depths)]
  end.

(** The catalog [get_band_wavelengths] returns. *)
Definition catalog (st : Store) (raster3d : string) (depths : Z) : dict :=
  match scan_wavelengths st raster3d depths with
  | [] => band_numbers depths
  | d => d
  end.

Lemma get_band_wavelengths_run raster3d w info :
  raster3d_info (store w) raster3d = inl info ->
  get_band_wavelengths raster3d w =
  (Return (catalog (store w) raster3d (depths info)),
   World (store w) (log w ++ catalog_events (store w) raster3d (depths info))%list).
Proof.
  intros Hinfo. unfold catalog, catalog_events.
  destruct (scan_wavelengths (store w) raster3d (depths info)) as [|e r] eqn:E.
  - apply get_band_wavelengths_synthetic; assumption.
  - rewrite <- E. apply get_band_wavelengths_scanned; [assumption | congruence].
Qed.

Lemma catalog_wf st raster3d N : wf (catalog st raster3d N).
Proof.
  unfold catalog. pose proof (scan_wavelengths_wf st raster3d N) as H.
  destruct (scan_wavelengths st raster3d N); [apply band_numbers_wf | exact H].
Qed.

Lemma band_numbers_nonempty N : 1 <= N -> band_numbers N <> [].
Proof.
  intros H. unfold band_numbers. rewrite (range_cons 1 (N + 1)) by lia.
  cbn [fold_left].
  assert (G : forall l d, d <> [] ->
                fold_left (fun d i => setitem d (of_int i) i) l d <> []).
  { induction l as [|i r IH]; intros d Hd; cbn [fold_left]; [exact Hd|].
    apply IH, setitem_nonempty. }
  apply G. discriminate.
Qed.

(** A stack of at least one band has a non-empty catalog. *)
Lemma catalog_nonempty st raster3d N : 1 <= N -> catalog st raster3d N <> [].
Proof.
  intros H. unfold catalog.
  destruct (scan_wavelengths st raster3d N); [apply band_numbers_nonempty, H | discriminate].
Qed.


Lemma to_float_ok s f w : py_float s = Some f -> to_float s w = (Return f, w).
Proof. intros H. unfold to_float. rewrite H. reflexivity. Qed.

Definition found_message (wavelengths : dict) : string :=
  "Found " ++ PyStr.str_int (len wavelengths) ++ " wavelength bands".

Definition selected (letter : string) (choice : Z * float) : string :=
  letter ++ ": " ++ str_float (snd choice) ++ "nm (band " ++ PyStr.str_int (fst choice) ++ ")".


Definition rgb_channels (red green blue : Z * float) : list (string * Z) :=
  [("red", fst red); ("green", fst green); ("blue", fst blue)].

Definition output_names (output_base : string) (channels : list (string * Z)) : list string :=
  map (fun ch => output_name output_base (fst ch)) channels.


(** Everything an RGB assembly prints and runs, in order. *)
Definition rgb_events (st : Store) (options : options) (flags : flags) (N : Z)
           (red green blue : Z * float) : list event :=
  let channels := rgb_channels red green blue in
  (catalog_events st (opt_input options) N
   ++ [Message (found_message (catalog st (opt_input options) N));
       Message ("Selected bands - " ++ selected "R" red ++ ", " ++ selected "G" green
                ++ ", " ++ selected "B" blue)]
   ++ flat_map (channel_events (opt_input options) (opt_output options) (flag_n flags)) channels
   ++ (if negb (String.eqb (opt_colorblind options) "none")
       then colorblind_events (opt_colorblind options) else [])
   ++ [Run (i_group (opt_output options ++ "_rgb")
                    (output_names (opt_output options) channels));
       Message ("Created RGB image group: " ++ opt_output options ++ "_rgb");
       Message ("Individual bands: "
                ++ PyStr.join ", " (output_names (opt_output options) channels))])%list.

Lemma append_assoc (a b c : string) : (a ++ b) ++ c = a ++ (b ++ c).
Proof. induction a as [|x a IH]; cbn [append]; [reflexivity | rewrite IH; reflexivity]. Qed.


(** An RGB assembly under the same conditions runs to its end. *)
Lemma create_rgb_composite_run options flags w info red_wl green_wl blue_wl :
  raster3d_info (store w) (opt_input options) = inl info ->
  1 <= depths info ->
  py_float (opt_red_wavelength options) = Some red_wl ->
  py_float (opt_green_wavelength options) = Some green_wl ->
  py_float (opt_blue_wavelength options) = Some blue_wl ->
  store_accepts ->
  let wavelengths := catalog (store w) (opt_input options) (depths info) in
  exists red green blue st',
    find_closest_band red_wl wavelengths = inr red /\
    find_closest_band green_wl wavelengths = inr green /\
    find_closest_band blue_wl wavelengths = inr blue /\
    create_rgb_composite options flags w =
    (Return tt,
     World st' (log w ++ rgb_events (store w) options flags (depths info)
                                    red green blue)%list).
Proof.
  intros Hinfo HN Hr Hg Hb Hok wavelengths.
  pose proof (catalog_wf (store w) (opt_input options) (depths info)) as Hwf.
  pose proof (catalog_nonempty (store w) (opt_input options) (depths info) HN) as Hne.
  fold wavelengths in Hwf, Hne.
  destruct (find_closest_band_returns red_wl wavelengths Hwf Hne) as (rb & ra & Fr).
  destruct (find_closest_band_returns green_wl wavelengths Hwf Hne) as (gb & ga & Fg).
  destruct (find_closest_band_returns blue_wl wavelengths Hwf Hne) as (bb & ba & Fb).
  exists (rb, ra), (gb, ga), (bb, ba).
  unfold create_rgb_composite.
  rewrite (bind_return _ _ _ _ _ (get_band_wavelengths_run _ _ _ Hinfo)).
  fold wavelengths.
  unfold bind at 1. unfold message at 1, emit.
  rewrite (bind_return _ _ _ _ _ (to_float_ok _ _ _ Hr)).
  rewrite (bind_return _ _ _ _ _ (to_float_ok _ _ _ Hg)).
  rewrite (bind_return _ _ _ _ _ (to_float_ok _ _ _ Hb)).
  rewrite Fr, Fg, Fb. cbn [lift].
  unfold bind at 1. unfold ret at 1.
  unfold bind at 1. unfold ret at 1.
  unfold bind at 1. unfold ret at 1.
  unfold bind at 1. unfold message at 1, emit.
  set (w1 := World _ _).
  destruct (create_channels_ok (opt_input options) (opt_output options) (flag_n flags) Hok
              [("red", rb); ("green", gb); ("blue", bb)] [] w1)
    as [st2 E2].
  rewrite (bind_return _ _ _ _ _ E2).
  set (w2 := World st2 _).
  set (output_maps := ([] ++ map (fun ch : string * Z => output_name (opt_output options) (fst ch))
                          [("red", rb); ("green", gb); ("blue", bb)])%list).
  assert (E3 : exists w3,
             (if negb (String.eqb (opt_colorblind options) "none")
              then bind (apply_colorblind_adjustment output_maps (opt_colorblind options))
                        (fun _ => ret tt)
              else ret tt) w2 = (Return tt, w3) /\
             store w3 = st2 /\
             log w3 = (log w2 ++ (if negb (String.eqb (opt_colorblind options) "none")
                                  then colorblind_events (opt_colorblind options)
                                  else []))%list).
  { destruct (String.eqb (opt_colorblind options) "none"); cbn [negb].
    - exists w2. unfold ret. rewrite app_nil_r. repeat split; reflexivity.
    - eexists. rewrite (bind_return _ _ _ _ _ (apply_colorblind_adjustment_run _ _ _)).
      unfold ret. repeat split; reflexivity. }
  destruct E3 as (w3 & E3 & S3 & L3).
  rewrite (bind_return _ _ _ _ _ E3).
  destruct (gs_run_command_ok (i_group (opt_output options ++ "_rgb") output_maps) w3 Hok)
    as [st4 E4].
  rewrite (bind_return _ _ _ _ _ E4).
  exists st4. repeat (split; [reflexivity|]).
  unfold bind at 1. unfold message, emit. cbn [store log].
  f_equal. f_equal. rewrite L3.
  subst w2 w1 output_maps. cbn [log store].
  unfold rgb_events, rgb_channels, output_names, selected.
  cbn [fst snd app]. rewrite <- !app_assoc. cbn [app].
  rewrite !append_assoc. reflexivity.
Qed.

(** A loop that stores at most one wavelength per band keeps every entry
    tied to a band it has seen: the value is the band, the key is the
    wavelength of that band or the stored key that [==] it. *)
Lemma fold_setitem_sound (g : Z -> option float) (f : dict -> Z -> dict) :
  (forall d i, match g i with Some wl => f d i = setitem d wl i | None => f d i = d end) ->
  forall (l : list Z) (d : dict) (seen : list Z),
    (forall k b, In (k, b) d ->
       In b seen /\ exists wl, g b = Some wl /\ (k = wl \/ feq k wl = true)) ->
    (forall k b, In (k, b) (fold_left f l d) ->
       In b (seen ++ l)%list /\ exists wl, g b = Some wl /\ (k = wl \/ feq k wl = true)) /\
    (List.length (fold_left f l d) <= List.length d + List.length l)%nat.
Proof.
  intros Hf. induction l as [|i r IH]; intros d seen Hd; cbn [fold_left].
  - rewrite app_nil_r. split; [exact Hd | cbn [List.length]; lia].
  - destruct (IH (f d i) (seen ++ [i])%list) as [H1 H2].
    + intros k b Hin. specialize (Hf d i).
      destruct (g i) as [wl|] eqn:Eg; rewrite Hf in Hin.
      * apply setitem_entries in Hin. destruct Hin as [Hin|[-> Hk]].
        -- destruct (Hd _ _ Hin) as [Hs Hw]. split; [apply in_or_app; left; exact Hs | exact Hw].
        -- split; [apply in_or_app; right; left; reflexivity|].
           exists wl. split; [exact Eg | exact Hk].
      * destruct (Hd _ _ Hin) as [Hs Hw]. split; [apply in_or_app; left; exact Hs | exact Hw].
    + split.
      * intros k b Hin. destruct (H1 _ _ Hin) as [Hs Hw]. split; [|exact Hw].
        rewrite <- app_assoc in Hs. exact Hs.
      * specialize (Hf d i). cbn [List.length].
        destruct (g i) as [wl|]; rewrite Hf in H2 |- *.
        -- pose proof (setitem_length d wl i). lia.
        -- lia.
Qed.

Lemma range_length lo hi : List.length (range lo hi) = Z.to_nat (hi - lo).
Proof. unfold range. rewrite length_map, length_seq. reflexivity. Qed.

(** The wavelength that band [b] stands for in the catalog: the one its
    metadata gave, or [float(b)] when the scan recorded nothing. *)
Definition wavelength_of_band (st : Store) (raster3d : string) (N b : Z) : option float :=
  match scan_wavelengths st raster3d N with
  | [] => Some (of_int b)
  | _ => band_wavelength st raster3d b
  end.

Lemma catalog_sound st raster3d N :
  (forall k b, In (k, b) (catalog st raster3d N) ->
     1 <= b <= N /\
     exists wl, wavelength_of_band st raster3d N b = Some wl /\ (k = wl \/ feq k wl = true)) /\
  (List.length (catalog st raster3d N) <= Z.to_nat N)%nat.
Proof.
  unfold catalog, wavelength_of_band.
  destruct (scan_wavelengths st raster3d N) as [|e r] eqn:E.
  - unfold band_numbers.
    destruct (fold_setitem_sound (fun i => Some (of_int i))
                (fun d i => setitem d (of_int i) i) (fun d i => eq_refl)
                (range 1 (N + 1)) [] []) as [H1 H2]; [intros k b []|].
    split.
    + intros k b Hin. destruct (H1 _ _ Hin) as [Hs Hw].
      cbn [app] in Hs. apply range_in in Hs. split; [lia | exact Hw].
    + rewrite range_length in H2. cbn [List.length] in H2. lia.
  - rewrite <- E. unfold scan_wavelengths.
    destruct (fold_setitem_sound (band_wavelength st raster3d) (scan_band st raster3d)
                (fun d i => ltac:(unfold scan_band; destruct (band_wavelength st raster3d i);
                                  reflexivity))
                (range 1 (N + 1)) [] []) as [H1 H2]; [intros k b []|].
    split.
    + intros k b Hin. destruct (H1 _ _ Hin) as [Hs Hw].
      cbn [app] in Hs. apply range_in in Hs. split; [lia | exact Hw].
    + rewrite range_length in H2. cbn [List.length] in H2. lia.
Qed.






(** C9, as the script has it.  An RGB assembly with the colorblind mode
    protanopia, deuteranopia or tritanopia (on a stack of at least one
    band, with target wavelengths that parse and a store that accepts
    every call) prints the warning that the adjustment was selected but
    requires post-processing.  The colorblind step alters no channel:
    [apply_colorblind_adjustment] returns the channel list it was
    given, leaves the store as it was and runs no module, whatever the
    mode. *)
Theorem colorblind_step_only_warns options flags w info red_wl green_wl blue_wl :
  raster3d_info (store w) (opt_input options) = inl info ->
  1 <= depths info ->
  py_float (opt_red_wavelength options) = Some red_wl ->
  py_float (opt_green_wavelength options) = Some green_wl ->
  py_float (opt_blue_wavelength options) = Some blue_wl ->
  store_accepts ->
  In (opt_colorblind options) colorblind_modes ->
  (exists w',
     create_rgb_composite options flags w = (Return tt, w') /\
     In (Warning (colorblind_warning (opt_colorblind options))) (log w')) /\
  (forall channels colorblind_type w0,
     exists printed,
       apply_colorblind_adjustment channels colorblind_type w0 =
       (Return channels, World (store w0) (log w0 ++ printed)%list) /\
       runs printed = []).
Proof.
  intros Hinfo HN Hr Hg Hb Hok Hmode. split.
  - destruct (create_rgb_composite_run options flags w info _ _ _ Hinfo HN Hr Hg Hb Hok)
      as (red & green & blue & st' & _ & _ & _ & Hrun).
    eexists. split; [exact Hrun|]. cbn [log]. unfold rgb_events.
    assert (Hnone : String.eqb (opt_colorblind options) "none" = false).
    { apply String.eqb_neq. intros E. rewrite E in Hmode.
      destruct Hmode as [H|[H|[H|[]]]]; discriminate H. }
    rewrite Hnone. cbn [negb]. unfold colorblind_events.
    rewrite (proj2 (has_key_adjustments _) Hmode).
    apply in_or_app. right. apply in_or_app. right. apply in_or_app. right.
    apply in_or_app. right. apply in_or_app. left. right. left. reflexivity.
  - intros channels colorblind_type w0. exists (colorblind_events colorblind_type).
    split; [apply apply_colorblind_adjustment_run | apply colorblind_events_runs].
Qed.

(** C7. On a 10-band stack whose scan records no wavelength, with the
    targets red 650, green 550 and blue 450, the catalog is
    [{1.0: 1, ..., 10.0: 10}], [find_closest_band] returns band 10 (at
    the synthetic wavelength 10.0) for each of the three targets, and
    the RGB assembly copies band 10 into all three channels. *)
Theorem ten_bands_without_metadata options flags w info :
  raster3d_info (store w) (opt_input options) = inl info ->
  depths info = 10 ->
  scan_wavelengths (store w) (opt_input options) 10 = [] ->
  py_float (opt_red_wavelength options) = Some (of_int 650) ->
  py_float (opt_green_wavelength options) = Some (of_int 550) ->
  py_float (opt_blue_wavelength options) = Some (of_int 450) ->
  store_accepts ->
  let wavelengths := band_number_items 10 in
  let last := (10, of_int 10) in
  (exists w', get_band_wavelengths (opt_input options) w = (Return wavelengths, w')) /\
  find_closest_band (of_int 650) wavelengths = inr last /\
  find_closest_band (of_int 550) wavelengths = inr last /\
  find_closest_band (of_int 450) wavelengths = inr last /\
  (exists st',
     create_rgb_composite options flags w =
     (Return tt, World st' (log w ++ rgb_events (store w) options flags 10 last last last)%list)).
Proof.
  intros Hinfo HN Hscan Hr Hg Hb Hok wavelengths last.
  assert (Hcat : catalog (store w) (opt_input options) 10 = wavelengths).
  { unfold catalog. rewrite Hscan. vm_compute. reflexivity. }
  assert (F650 : find_closest_band (of_int 650) wavelengths = inr last)
    by (vm_compute; reflexivity).
  assert (F550 : find_closest_band (of_int 550) wavelengths = inr last)
    by (vm_compute; reflexivity).
  assert (F450 : find_closest_band (of_int 450) wavelengths = inr last)
    by (vm_compute; reflexivity).
  split; [|split; [exact F650 | split; [exact F550 | split; [exact F450|]]]].
  - eexists. rewrite (get_band_wavelengths_run _ _ _ Hinfo), HN, Hcat. reflexivity.
  - assert (HN1 : 1 <= depths info) by lia.
    destruct (create_rgb_composite_run options flags w info _ _ _ Hinfo HN1 Hr Hg Hb Hok)
      as (red & green & blue & st' & Fr & Fg & Fb & Hrun).
    rewrite HN, Hcat in Fr, Fg, Fb.
    assert (red = last) by congruence. assert (green = last) by congruence.
    assert (blue = last) by congruence. subst red green blue.
    exists st'. rewrite Hrun, HN. reflexivity.
Qed.

(** ** Further properties of the script *)

Definition creating_message (colorspace : string) : string :=
  "Creating " ++ PyStr.upper colorspace ++ " composite...".

(** X2. When [gs.raster3d_info] raises on the input map, a run in
    either colorspace stops with the fatal message that names the map
    and carries the text of the exception; the store is untouched, no
    module is run and only the opening message was printed. *)
Theorem main_stops_without_raster_info (options : options) (flags : flags) (w : world)
        (e : string) :
  opt_colorspace options = "rgb" \/ opt_colorspace options = "cmyk" ->
  raster3d_info (store w) (opt_input options) = inr e ->
  main options flags w =
  (Fatal ("Cannot get info for 3D raster " ++ opt_input options ++ ": " ++ e),
   World (store w) (log w ++ [Message (creating_message (opt_colorspace options))])%list).
Proof.
  intros Hcs Hinfo. unfold main, creating_message.
  unfold bind at 1. unfold message at 1, emit.
  unfold bind at 1.
  destruct Hcs as [Hcs|Hcs]; rewrite Hcs; cbn [String.eqb Ascii.eqb Bool.eqb].
  - unfold create_rgb_composite, get_band_wavelengths, bind, get_raster3d_info.
    cbn [store log]. rewrite Hinfo. reflexivity.
  - unfold create_cmyk_composite, get_band_wavelengths, bind, get_raster3d_info.
    cbn [store log]. rewrite Hinfo. reflexivity.
Qed.

(** X3. A colorspace other than "rgb" and "cmyk" stops the run with the
    fatal message "Unknown colorspace: <colorspace>" right after the
    opening message, before anything is read from or run against the
    store.  For a colorspace in ASCII the opening message is "Creating
    <COLORSPACE> composite...", with the letters a-z in upper case. *)
Theorem main_unknown_colorspace (options : options) (flags : flags) (w : world) :
  opt_colorspace options <> "rgb" ->
  opt_colorspace options <> "cmyk" ->
  exists opening,
    main options flags w =
    (Fatal ("Unknown colorspace: " ++ opt_colorspace options),
     World (store w) (log w ++ [Message opening])%list) /\
    (PyStr.isascii (opt_colorspace options) = true ->
     opening = "Creating " ++ PyStr.map_chars
                                (fun c => if PyStr.in_range 97 122 c
                                          then ascii_of_nat (nat_of_ascii c - 32) else c)
                                (opt_colorspace options)
               ++ " composite...").
Proof.
  intros Hrgb Hcmyk. unfold main.
  apply String.eqb_neq in Hrgb, Hcmyk.
  eexists. split.
  - unfold bind at 1. unfold message at 1, emit.
    unfold bind at 1. rewrite Hrgb, Hcmyk. reflexivity.
  - intros _. reflexivity.
Qed.

(** X4. Whenever the map's header can be read, [get_band_wavelengths]
    returns a catalog that is a proper dict (no two keys are [==]), has
    at most one entry per band and is not empty when the stack has a
    band; every entry names a band of the stack (1..depths) under the
    wavelength that this band stands for (the one its metadata gave, or
    [float(band)] in the fallback) or under the stored key [==] to it. *)
Theorem get_band_wavelengths_catalog_sound (raster3d : string) (w : world) (info : r3info) :
  raster3d_info (store w) raster3d = inl info ->
  exists wavelengths w',
    get_band_wavelengths raster3d w = (Return wavelengths, w') /\
    wf wavelengths /\
    (List.length wavelengths <= Z.to_nat (depths info))%nat /\
    (1 <= depths info -> wavelengths <> []) /\
    (forall k b, In (k, b) wavelengths ->
       1 <= b <= depths info /\
       exists wl, wavelength_of_band (store w) raster3d (depths info) b = Some wl /\
                  (k = wl \/ feq k wl = true)).
Proof.
  intros Hinfo. eexists. eexists.
  split; [exact (get_band_wavelengths_run _ _ _ Hinfo)|].
  split; [apply catalog_wf|].
  destruct (catalog_sound (store w) raster3d (depths info)) as [H1 H2].
  split; [exact H2|]. split; [apply catalog_nonempty | exact H1].
Qed.

Lemma catalog_empty st raster3d N : N <= 0 -> catalog st raster3d N = [].
Proof.
  intros H. unfold catalog, scan_wavelengths, band_numbers.
  rewrite range_empty by lia. reflexivity.
Qed.

Lemma catalog_events_empty st raster3d N :
  N <= 0 ->
  catalog_events st raster3d N = [Verbose (scanning_message N); Warning no_metadata_warning].
Proof.
  intros H. unfold catalog_events, scan_wavelengths.
  rewrite range_empty by lia. reflexivity.
Qed.

(** X5. A stack without bands (depths at most 0) gives an empty catalog,
    after the no-metadata warning, and the band selection cannot work on
    it: both assemblies end in a [ValueError] (from [float] on a target,
    or from [min] on the empty catalog) before any module is run; the
    store is untouched. *)
Theorem empty_stack_raises (options : options) (flags : flags) (w : world) (info : r3info) :
  raster3d_info (store w) (opt_input options) = inl info ->
  depths info <= 0 ->
  let after := World (store w)
                     (log w ++ [Verbose (scanning_message (depths info));
                                Warning no_metadata_warning;
                                Message "Found 0 wavelength bands"])%list in
  get_band_wavelengths (opt_input options) w =
    (Return [], World (store w) (log w ++ [Verbose (scanning_message (depths info));
                                           Warning no_metadata_warning])%list) /\
  (forall target_wavelength, find_closest_band target_wavelength [] = inl ValueError) /\
  create_rgb_composite options flags w = (Raise ValueError, after) /\
  create_cmyk_composite options flags w = (Raise ValueError, after).
Proof.
  intros Hinfo HN after.
  pose proof (get_band_wavelengths_run _ _ _ Hinfo) as Hrun.
  rewrite (catalog_empty _ _ _ HN), (catalog_events_empty _ _ _ HN) in Hrun.
  split; [exact Hrun|]. split; [reflexivity|]. split.
  - unfold create_rgb_composite. rewrite (bind_return _ _ _ _ _ Hrun).
    unfold bind at 1. unfold message at 1, emit. cbn [store log].
    unfold bind, to_float.
    destruct (py_float (opt_red_wavelength options));
      [|unfold after; rewrite <- app_assoc; reflexivity].
    destruct (py_float (opt_green_wavelength options));
      [|unfold after; rewrite <- app_assoc; reflexivity].
    destruct (py_float (opt_blue_wavelength options));
      unfold after; rewrite <- app_assoc; reflexivity.
  - unfold create_cmyk_composite. rewrite (bind_return _ _ _ _ _ Hrun).
    unfold bind at 1. unfold message at 1, emit. cbn [store log].
    unfold bind, to_float.
    destruct (py_float (opt_cyan_wavelength options));
      [|unfold after; rewrite <- app_assoc; reflexivity].
    destruct (py_float (opt_magenta_wavelength options));
      [|unfold after; rewrite <- app_assoc; reflexivity].
    destruct (py_float (opt_yellow_wavelength options));
      [|unfold after; rewrite <- app_assoc; reflexivity].
    destruct (py_float (opt_key_wavelength options));
      unfold after; rewrite <- app_assoc; reflexivity.
Qed.


Lemma bind_assoc {A B C : Type} (c : M A) (f : A -> M B) (k : B -> M C) (w : world) :
  bind (bind c f) k w = bind c (fun a => bind (f a) k) w.
Proof. unfold bind. destruct (c w) as [[a|msg|e] w']; reflexivity. Qed.

Lemma bind_ext {A B : Type} (c : M A) (f g : A -> M B) (w : world) :
  (forall a w', f a w' = g a w') -> bind c f w = bind c g w.
Proof. intros H. unfold bind. destruct (c w) as [[a|msg|e] w']; [apply H | reflexivity..]. Qed.

(** The channel loop over a list in two parts is the loop over the
    first part, then over the second from what the first appended. *)
Lemma create_channels_app input_raster output_base normalize :
  forall channels1 channels2 output_maps w,
    create_channels input_raster output_base normalize (channels1 ++ channels2) output_maps w =
    bind (create_channels input_raster output_base normalize channels1 output_maps)
         (fun output_maps' =>
            create_channels input_raster output_base normalize channels2 output_maps') w.
Proof.
  induction channels1 as [|[color band] rest IH]; intros channels2 output_maps w.
  - reflexivity.
  - cbn [app create_channels]. rewrite !bind_assoc.
    apply bind_ext. intros _ w1. rewrite bind_assoc.
    apply bind_ext. intros _ w2. rewrite bind_assoc.
    apply bind_ext. intros _ w3. apply IH.
Qed.

(** X7. When the store refuses the copy of a channel, the channel loop
    ends there with [CalledModuleError]: the channels before it were
    materialized and stay as they are (nothing is undone), the refused
    copy is the last module called, and no later channel is touched. *)
Theorem create_channels_stops_at_refused_copy
        (input_raster output_base : string) (normalize : bool)
        (before after : list (string * Z)) (color : string) (band : Z)
        (output_maps output_maps1 : list string) (w w1 : world) :
  create_channels input_raster output_base normalize before output_maps w =
    (Return output_maps1, w1) ->
  run_command (store w1)
              (g_copy (band_name input_raster band) (output_name output_base color)) = None ->
  create_channels input_raster output_base normalize
                  (before ++ (color, band) :: after) output_maps w =
  (Raise CalledModuleError,
   World (store w1)
         (log w1 ++ [Message ("Creating " ++ color ++ " channel: "
                              ++ output_name output_base color);
                     Run (g_copy (band_name input_raster band)
                                 (output_name output_base color))])%list).
Proof.
  intros Hbefore Hrefused.
  rewrite create_channels_app, (bind_return _ _ _ _ _ Hbefore).
  cbn [create_channels]. unfold bind at 1. unfold message at 1, emit.
  unfold bind at 1. unfold gs_run_command. cbn [store log].
  change (output_base ++ "_" ++ color) with (output_name output_base color).
  rewrite Hrefused. rewrite <- app_assoc. reflexivity.
Qed.



(** The method of the band-series aggregator that a statistic stands
    for. *)
Definition series_method (statistic : string) : string :=
  if String.eqb statistic "min" then "minimum"
  else if String.eqb statistic "max" then "maximum"
  else statistic.

(** X9. No value that the [statistic] option admits stops
    [calculate_statistic]: "mean" gives the expression, each of the ten
    others gives the band names with the aggregator's method ("minimum"
    for min, "maximum" for max, the statistic's own name otherwise); the
    session is left as it was. *)
Theorem calculate_statistic_admitted
        (raster3d : string) (band_indices : list Z) (statistic : string) (w : world) :
  In statistic enumerated_statistics ->
  calculate_statistic raster3d band_indices statistic w =
  (Return (if String.eqb statistic "mean"
           then (PStr (mean_expression (map (band_name raster3d) band_indices)), None)
           else (PList (map (band_name raster3d) band_indices),
                 Some (series_method statistic))),
   w).
Proof.
  intros H. unfold enumerated_statistics in H. cbn [In] in H.
  repeat (destruct H as [<-|H];
          [unfold calculate_statistic, mean_expression, len, ret;
           rewrite ?join_sum_text; reflexivity|]).
  destruct H.
Qed.

(** *** What the options do not change *)

Definition with_statistic (o : options) (statistic : string) : options :=
  Options (opt_input o) (opt_output o) (opt_colorspace o) statistic (opt_colorblind o)
          (opt_red_wavelength o) (opt_green_wavelength o) (opt_blue_wavelength o)
          (opt_cyan_wavelength o) (opt_magenta_wavelength o) (opt_yellow_wavelength o)
          (opt_key_wavelength o).

Definition with_colorblind (o : options) (colorblind : string) : options :=
  Options (opt_input o) (opt_output o) (opt_colorspace o) (opt_statistic o) colorblind
          (opt_red_wavelength o) (opt_green_wavelength o) (opt_blue_wavelength o)
          (opt_cyan_wavelength o) (opt_magenta_wavelength o) (opt_yellow_wavelength o)
          (opt_key_wavelength o).

(** X10. The [statistic] option changes nothing: a run with any other
    statistic ends the same way, in the same store, with the same log
    ([calculate_statistic] is never called by [main]). *)
Theorem main_ignores_statistic (options : options) (statistic : string) (flags : flags)
        (w : world) :
  main (with_statistic options statistic) flags w = main options flags w.
Proof. destruct options. reflexivity. Qed.

(** Two sessions with the same store in which the same modules were
    run: they may differ in the messages printed. *)
Definition same_effects (w1 w2 : world) : Prop :=
  store w1 = store w2 /\ runs (log w1) = runs (log w2).

(** Two computations that, from such sessions, end the same way and in
    such sessions again. *)
Definition alike {A : Type} (c1 c2 : M A) : Prop :=
  forall w1 w2, same_effects w1 w2 ->
    fst (c1 w1) = fst (c2 w2) /\ same_effects (snd (c1 w1)) (snd (c2 w2)).

Lemma alike_bind {A B : Type} (c1 c2 : M A) (k1 k2 : A -> M B) :
  alike c1 c2 -> (forall a, alike (k1 a) (k2 a)) -> alike (bind c1 k1) (bind c2 k2).
Proof.
  intros Hc Hk w1 w2 Hw. unfold bind. destruct (Hc w1 w2 Hw) as [Ho Hs].
  destruct (c1 w1) as [o1 w1'], (c2 w2) as [o2 w2']. cbn [fst snd] in Ho, Hs. subst o2.
  destruct o1 as [a|msg|e]; [apply Hk; exact Hs | split; [reflexivity | exact Hs]..].
Qed.

Lemma alike_ret {A : Type} (a : A) : alike (ret a) (ret a).
Proof. intros w1 w2 Hw. split; [reflexivity | exact Hw]. Qed.

Lemma alike_fatal {A : Type} (msg : string) : alike (@fatal A msg) (fatal msg).
Proof. intros w1 w2 Hw. split; [reflexivity | exact Hw]. Qed.

Lemma alike_to_float (s : string) : alike (to_float s) (to_float s).
Proof.
  intros w1 w2 Hw. unfold to_float. destruct (py_float s); split; (reflexivity || exact Hw).
Qed.

Lemma alike_lift {A : Type} (r : exn + A) : alike (lift r) (lift r).
Proof. intros w1 w2 Hw. destruct r; split; (reflexivity || exact Hw). Qed.

(** Printing is no effect: any two messages are alike. *)
Lemma alike_message (m1 m2 : string) : alike (message m1) (message m2).
Proof.
  intros w1 w2 [Hs Hr]. unfold message, emit. cbn [fst snd].
  split; [reflexivity|]. split; [exact Hs|].
  cbn [log]. rewrite !runs_app, Hr. reflexivity.
Qed.

Lemma alike_run (c : command) : alike (gs_run_command c) (gs_run_command c).
Proof.
  intros w1 w2 [Hs Hr]. unfold gs_run_command. rewrite Hs.
  destruct (run_command (store w2) c); cbn [fst snd store log];
    (split; [reflexivity|]; split; [reflexivity|];
     cbn [log]; rewrite !runs_app, Hr; reflexivity).
Qed.

Lemma alike_get_band_wavelengths (raster3d : string) :
  alike (get_band_wavelengths raster3d) (get_band_wavelengths raster3d).
Proof.
  intros w1 w2 [Hs Hr].
  destruct (raster3d_info (store w2) raster3d) as [info|e] eqn:E.
  - assert (E1 : raster3d_info (store w1) raster3d = inl info) by (rewrite Hs; exact E).
    rewrite (get_band_wavelengths_run _ _ _ E1), (get_band_wavelengths_run _ _ _ E).
    cbn [fst snd]. rewrite Hs. split; [reflexivity|]. split; [reflexivity|].
    cbn [log]. rewrite !runs_app, Hr. reflexivity.
  - unfold get_band_wavelengths, bind, get_raster3d_info. rewrite Hs, E.
    cbn [fatal fst snd]. split; [reflexivity|]. split; assumption.
Qed.

Lemma alike_create_channels input_raster output_base normalize :
  forall channels output_maps,
    alike (create_channels input_raster output_base normalize channels output_maps)
          (create_channels input_raster output_base normalize channels output_maps).
Proof.
  induction channels as [|[color band] rest IH]; intros output_maps; cbn [create_channels].
  - apply alike_ret.
  - apply alike_bind; [apply alike_message | intros _].
    apply alike_bind; [apply alike_run | intros _].
    apply alike_bind; [destruct normalize; [apply alike_run | apply alike_ret] | intros _].
    apply IH.
Qed.

(** The colorblind step of one mode against that of another. *)
Lemma alike_colorblind_step (output_maps : list string) (c1 c2 : string) :
  alike (if negb (String.eqb c1 "none")
         then bind (apply_colorblind_adjustment output_maps c1) (fun _ => ret tt)
         else ret tt)
        (if negb (String.eqb c2 "none")
         then bind (apply_colorblind_adjustment output_maps c2) (fun _ => ret tt)
         else ret tt).
Proof.
  assert (H : forall c w,
             exists printed,
               (if negb (String.eqb c "none")
                then bind (apply_colorblind_adjustment output_maps c) (fun _ => ret tt)
                else ret tt) w = (Return tt, World (store w) (log w ++ printed)%list) /\
               runs printed = []).
  { intros c w. destruct (negb (String.eqb c "none")).
    - exists (colorblind_events c).
      rewrite (bind_return _ _ _ _ _ (apply_colorblind_adjustment_run _ _ _)).
      split; [reflexivity | apply colorblind_events_runs].
    - exists []. unfold ret. rewrite app_nil_r. destruct w; split; reflexivity. }
  intros w1 w2 [Hs Hr].
  destruct (H c1 w1) as [p1 [E1 R1]]. destruct (H c2 w2) as [p2 [E2 R2]].
  rewrite E1, E2. cbn [fst snd]. split; [reflexivity|]. split; [exact Hs|].
  cbn [log]. rewrite !runs_app, R1, R2, Hr. reflexivity.
Qed.

Lemma alike_create_rgb_composite (options : options) (colorblind : string) (flags : flags) :
  alike (create_rgb_composite (with_colorblind options colorblind) flags)
        (create_rgb_composite options flags).
Proof.
  destruct options. unfold with_colorblind, create_rgb_composite.
  cbn [opt_input opt_output opt_colorspace opt_statistic opt_colorblind
       opt_red_wavelength opt_green_wavelength opt_blue_wavelength].
  apply alike_bind; [apply alike_get_band_wavelengths | intros wavelengths].
  apply alike_bind; [apply alike_message | intros _].
  apply alike_bind; [apply alike_to_float | intros red_wl].
  apply alike_bind; [apply alike_to_float | intros green_wl].
  apply alike_bind; [apply alike_to_float | intros blue_wl].
  apply alike_bind; [apply alike_lift | intros [red_band actual_red]].
  apply alike_bind; [apply alike_lift | intros [green_band actual_green]].
  apply alike_bind; [apply alike_lift | intros [blue_band actual_blue]].
  apply alike_bind; [apply alike_message | intros _].
  apply alike_bind; [apply alike_create_channels | intros output_maps].
  apply alike_bind; [apply alike_colorblind_step | intros _].
  apply alike_bind; [apply alike_run | intros _].
  apply alike_bind; [apply alike_message | intros _].
  apply alike_message.
Qed.

Lemma create_cmyk_composite_no_colorblind (options : options) (colorblind : string)
      (flags : flags) (w : world) :
  create_cmyk_composite (with_colorblind options colorblind) flags w =
  create_cmyk_composite options flags w.
Proof. destruct options. reflexivity. Qed.

(** X11. The [colorblind] option changes messages only: a run with any
    other mode, in either colorspace, ends the same way (returns, stops
    or raises alike), leaves the same store and has run the same
    modules with the same arguments, in the same order. *)
Theorem main_colorblind_changes_messages_only
        (options : options) (colorblind : string) (flags : flags) (w : world) :
  fst (main (with_colorblind options colorblind) flags w) = fst (main options flags w) /\
  store (snd (main (with_colorblind options colorblind) flags w)) =
    store (snd (main options flags w)) /\
  runs (log (snd (main (with_colorblind options colorblind) flags w))) =
    runs (log (snd (main options flags w))).
Proof.
  assert (H : alike (main (with_colorblind options colorblind) flags) (main options flags)).
  { unfold main.
    replace (opt_colorspace (with_colorblind options colorblind))
      with (opt_colorspace options) by (destruct options; reflexivity).
    apply alike_bind; [apply alike_message | intros _].
    apply alike_bind; [|intros _; apply alike_message].
    destruct (String.eqb (opt_colorspace options) "rgb").
    - apply alike_create_rgb_composite.
    - destruct (String.eqb (opt_colorspace options) "cmyk"); [|apply alike_fatal].
      intros w1 w2 Hw. rewrite create_cmyk_composite_no_colorblind.
      revert w1 w2 Hw. change (alike (create_cmyk_composite options flags)
                                     (create_cmyk_composite options flags)).
      unfold create_cmyk_composite.
      apply alike_bind; [apply alike_get_band_wavelengths | intros wavelengths].
      apply alike_bind; [apply alike_message | intros _].
      apply alike_bind; [apply alike_to_float | intros cyan_wl].
      apply alike_bind; [apply alike_to_float | intros magenta_wl].
      apply alike_bind; [apply alike_to_float | intros yellow_wl].
      apply alike_bind; [apply alike_to_float | intros key_wl].
      apply alike_bind; [apply alike_lift | intros [cyan_band actual_cyan]].
      apply alike_bind; [apply alike_lift | intros [magenta_band actual_magenta]].
      apply alike_bind; [apply alike_lift | intros [yellow_band actual_yellow]].
      apply alike_bind; [apply alike_lift | intros [key_band actual_key]].
      apply alike_bind; [apply alike_message | intros _].
      apply alike_bind; [apply alike_create_channels | intros output_maps].
      apply alike_bind; [apply alike_run | intros _].
      apply alike_bind; [apply alike_message | intros _].
      apply alike_message. }
  destruct (H w w (conj eq_refl eq_refl)) as [Ho [Hs Hr]].
  split; [exact Ho|]. split; [exact Hs | exact Hr].
Qed.

(** *** Selection on exact and on synthetic wavelengths *)

(** X12. When the catalog holds valid binary64 numbers (no NaN) and one
    of its keys [==] the finite target, [find_closest_band] returns that
    key and its band: an exact match always wins, wherever it stands in
    the catalog. *)
Theorem find_closest_band_exact_match
        (target_wavelength : float) (wavelengths : dict) (k : float) (b : Z) :
  wf wavelengths ->
  (forall k' b', In (k', b') wavelengths -> valid k' = true /\ is_nan k' = false) ->
  valid target_wavelength = true ->
  is_finite target_wavelength = true ->
  In (k, b) wavelengths ->
  feq k target_wavelength = true ->
  find_closest_band target_wavelength wavelengths = inr (b, k).
Proof.
  intros Hwf Hkeys Vt Ft Hin Hk.
  assert (Hne : wavelengths <> []) by (intros E; rewrite E in Hin; destruct Hin).
  destruct (find_closest_band_spec target_wavelength wavelengths Hwf Hne)
    as (band & wl & l1 & l2 & Hf & Hd & _ & Hmin).
  assert (Hwl : In (wl, band) wavelengths).
  { rewrite Hd. apply in_or_app. right. left. reflexivity. }
  pose proof (Hmin k b Hin) as Hk0. unfold distance in Hk0.
  rewrite (fsub_self k target_wavelength Hk Ft) in Hk0.
  destruct (Hkeys _ _ Hwl) as [Vwl Nwl].
  pose proof (fsub_zero_feq wl target_wavelength Vwl Vt Nwl Ft) as Hz.
  assert (Hwt : feq wl target_wavelength = true).
  { destruct (fsub wl target_wavelength) as [s|s| |s m e];
      cbn [fabs SFabs] in Hz, Hk0; [exact Hz | discriminate Hk0 | destruct Hz
                                  | discriminate Hk0]. }
  assert (Hkw : feq k wl = true).
  { eapply feq_trans; [exact Hk|]. rewrite feq_sym. exact Hwt. }
  pose proof (wf_unique _ _ _ _ _ Hwf Hin Hwl Hkw) as E.
  injection E as -> ->. exact Hf.
Qed.

Lemma band_numbers_items (N : Z) : N < 2 ^ 53 -> band_numbers N = band_number_items N.
Proof. intros H. rewrite band_numbers_display. apply band_number_items_distinct, H. Qed.

Lemma band_numbers_select_last (N T : Z) :
  1 <= N -> N <= T -> T < 2 ^ 53 ->
  find_closest_band (of_int T) (band_numbers N) = inr (N, of_int N).
Proof.
  intros HN HNT HT.
  pose proof (band_numbers_wf N) as Hwf.
  pose proof (band_numbers_nonempty N HN) as Hne.
  destruct (find_closest_band_spec (of_int T) (band_numbers N) Hwf Hne)
    as (band & wl & l1 & l2 & Hf & Hd & _ & Hmin).
  assert (Hwl : In (wl, band) (band_numbers N)).
  { rewrite Hd. apply in_or_app. right. left. reflexivity. }
  rewrite band_numbers_items in Hwl, Hmin by lia.
  unfold band_number_items in Hwl, Hmin.
  apply in_map_iff in Hwl. destruct Hwl as [i [E Hi]]. injection E as <- <-.
  apply range_in in Hi.
  assert (HinN : In (of_int N, N) (map (fun i => (of_int i, i)) (range 1 (N + 1)))).
  { apply in_map_iff. exists N. split; [reflexivity | apply range_in; lia]. }
  pose proof (Hmin _ _ HinN) as Hc. unfold distance in Hc.
  rewrite !distance_of_int in Hc by lia.
  destruct (Z.eq_dec i N) as [->|Hne']; [exact Hf|]. exfalso.
  destruct (Z.eq_dec T N) as [->|HTN].
  - rewrite Z.sub_diag in Hc.
    destruct (N - i) as [|r|r] eqn:Er; try lia.
    rewrite (of_int_pos r) in Hc by (apply digits2_pos_53; lia). discriminate Hc.
  - rewrite of_int_lt in Hc by lia. discriminate Hc.
Qed.

(** X13. In the fallback catalog of an [N]-band stack, every integral
    target at or above [N] (and below [2^53]) selects band [N], at the
    synthetic wavelength [N.0]: without metadata all such targets meet
    in the last band of the stack. *)
Theorem fallback_selects_last_band (N T : Z) :
  1 <= N -> N <= T -> T < 2 ^ 53 ->
  find_closest_band (of_int T) (band_numbers N) = inr (N, of_int N).
Proof. apply band_numbers_select_last. Qed.


(** X15. When every band of the stack records a wavelength and no two
    of them are [==], the catalog lists every band exactly once, in band
    order, each under its own wavelength: nothing is merged or lost, and
    no warning is printed. *)
Theorem get_band_wavelengths_one_entry_per_band
        (raster3d : string) (w : world) (info : r3info) (wl : Z -> float) :
  raster3d_info (store w) raster3d = inl info ->
  1 <= depths info ->
  (forall i, 1 <= i <= depths info ->
     band_wavelength (store w) raster3d i = Some (wl i)) ->
  (forall i j, 1 <= i -> i < j -> j <= depths info -> feq (wl i) (wl j) = false) ->
  get_band_wavelengths raster3d w =
  (Return (map (fun i => (wl i, i)) (range 1 (depths info + 1))),
   World (store w) (log w ++ [Verbose (scanning_message (depths info))])%list).
Proof.
  intros Hinfo HN Hall Hdiff.
  assert (Hscan : forall n : nat,
             Z.of_nat n <= depths info ->
             fold_left (scan_band (store w) raster3d) (range 1 (Z.of_nat n + 1)) [] =
             map (fun i => (wl i, i)) (range 1 (Z.of_nat n + 1))).
  { induction n as [|n IH]; intros Hn; [reflexivity|].
    replace (Z.of_nat (S n) + 1) with (Z.of_nat n + 1 + 1) by lia.
    rewrite range_snoc, fold_left_app, map_app by lia. cbn [fold_left map].
    rewrite IH by lia. unfold scan_band. rewrite Hall by lia.
    apply setitem_fresh. intros k' v' Hin.
    apply in_map_iff in Hin. destruct Hin as [i [E Hi]]. injection E as <- _.
    apply range_in in Hi. apply Hdiff; lia. }
  assert (Hs : scan_wavelengths (store w) raster3d (depths info) =
               map (fun i => (wl i, i)) (range 1 (depths info + 1))).
  { unfold scan_wavelengths. specialize (Hscan (Z.to_nat (depths info))).
    rewrite Z2Nat.id in Hscan by lia. apply Hscan. lia. }
  rewrite <- Hs. apply get_band_wavelengths_scanned; [exact Hinfo|].
  rewrite Hs, (range_cons 1 (depths info + 1)) by lia. discriminate.
Qed.

End Program.

Arguments World {Store} store log.
Arguments store {Store} w.
Arguments log {Store} w.

(** ** What the scan asks of the session *)

Lemma fold_left_ext_in {A B : Type} (f g : A -> B -> A) (l : list B) (a : A) :
  (forall x b, In b l -> f x b = g x b) -> fold_left f l a = fold_left g l a.
Proof.
  revert a. induction l as [|b r IH]; intros a H; cbn [fold_left]; [reflexivity|].
  rewrite (H a b (or_introl eq_refl)). apply IH.
  intros x b' Hin. apply H. right. exact Hin.
Qed.

(** X1. The only module that [get_band_wavelengths] calls is [r.support]
    with the flag [n], through [gs.read_command], on the bands
    [<raster3d>#i] for [i] from 1 to depths.  Beside the map's header,
    the output of these calls is all it reads of the session: with two
    ways of answering [gs.read_command] that agree on these calls it
    ends the same way, with the same catalog and the same messages. *)
Theorem get_band_wavelengths_reads_band_metadata
        (Store : Type) (raster3d_info : Store -> string -> r3info + string)
        (read_command read_command' : Store -> command -> option string)
        (py_float : string -> option PyFloat.float)
        (raster3d : string) (w : world Store) :
  (forall info i,
     raster3d_info (store w) raster3d = inl info -> 1 <= i <= depths info ->
     read_command (store w)
       (Command "r.support"
          [("map", Str (raster3d ++ "#" ++ PyStr.str_int i)); ("flags", Str "n")]%string) =
     read_command' (store w)
       (Command "r.support"
          [("map", Str (raster3d ++ "#" ++ PyStr.str_int i)); ("flags", Str "n")]%string)) ->
  get_band_wavelengths Store raster3d_info read_command py_float raster3d w =
  get_band_wavelengths Store raster3d_info read_command' py_float raster3d w.
Proof.
  intros H. unfold get_band_wavelengths, bind, get_raster3d_info.
  destruct (raster3d_info (store w) raster3d) as [info|e] eqn:E; [|reflexivity].
  unfold verbose, emit, get_store. cbn [store log].
  assert (Hscan : scan_wavelengths Store read_command py_float (store w) raster3d (depths info) =
                  scan_wavelengths Store read_command' py_float (store w) raster3d (depths info)).
  { unfold scan_wavelengths. apply fold_left_ext_in. intros d i Hin.
    apply PySeq.range_in in Hin.
    unfold scan_band, band_wavelength, band_name.
    rewrite (H info i eq_refl) by lia. reflexivity. }
  rewrite Hscan. reflexivity.
Qed.

(** ** A session to run the script on *)

Module Session.
Import PyFloat PyDict PySeq.
Local Open Scope string_scope.

(** A store with one 3D raster: its name, its number of bands, and the
    text [r.support -n] prints for each band (by band name; nothing for
    a band that is not listed). *)
Record Store : Type := MkStore {
  cube : string;
  bands : Z;
  metadata : list (string * string)
}.

Definition raster3d_info (st : Store) (name : string) : r3info + string :=
  if String.eqb name (cube st) then inl (R3Info (bands st))
  else inr ("3D raster map <" ++ name ++ "> not found").

Fixpoint lookup (k : string) (l : list (string * string)) : option string :=
  match l with
  | [] => None
  | (k', v) :: r => if String.eqb k' k then Some v else lookup k r
  end.

Definition read_command (st : Store) (c : command) : option string :=
  match c with
  | Command "r.support" [("map", Str band); ("flags", Str "n")] =>
      match lookup band (metadata st) with
      | Some text => Some text
      | None => Some ""
      end
  | _ => None
  end.

(** Every module call succeeds; the band metadata stay as they are. *)
Definition run_command (st : Store) (c : command) : option Store := Some st.

Definition is_digit (c : ascii) : bool := PyStr.in_range 48 57 c.

Fixpoint digits_value (acc : Z) (s : string) : option Z :=
  match s with
  | EmptyString => Some acc
  | String c r =>
      if is_digit c then digits_value (10 * acc + Z.of_nat (nat_of_ascii c - 48)) r
      else None
  end.

(** [float(s)] on a string of ASCII digits, the only strings that the
    sessions below parse. *)
Definition float_of_digits (s : string) : option float :=
  match s with
  | EmptyString => None
  | _ => option_map of_int (digits_value 0 s)
  end.

Definition integral_value (f : float) : option Z :=
  match f with
  | S754_zero _ => Some 0
  | S754_finite s m e =>
      let v := if (0 <=? e)%Z then Some (Zpos m * 2 ^ e)
               else if (Zpos m mod 2 ^ (- e) =? 0)%Z then Some (Zpos m / 2 ^ (- e))
                    else None in
      option_map (fun z => if s then - z else z) v
  | _ => None
  end.

(** The text Python prints for a float of integral value below [1e16],
    the only floats that the sessions below print. *)
Definition str_integral (f : float) : string :=
  match integral_value f with
  | Some z => PyStr.str_int z ++ ".0"
  | None => "nan"
  end.

Definition world : Type := world Store.

Definition start (st : Store) : world := World st [].

Lemma accepts : store_accepts Store run_command.
Proof. intros st c. discriminate. Qed.

(** The functions of the script on this store. *)
Definition scan : Store -> string -> Z -> dict :=
  scan_wavelengths Store read_command float_of_digits.
Definition wavelength_of : Store -> string -> Z -> option float :=
  band_wavelength Store read_command float_of_digits.
Definition run_get_band_wavelengths : string -> world -> outcome dict * world :=
  get_band_wavelengths Store raster3d_info read_command float_of_digits.
Definition run_calculate_statistic
  : string -> list Z -> string -> world -> outcome (pyval * option string) * world :=
  calculate_statistic Store.
Definition run_colorblind : list string -> string -> world -> outcome (list string) * world :=
  apply_colorblind_adjustment Store.
Definition run_rgb : options -> flags -> world -> outcome unit * world :=
  create_rgb_composite Store raster3d_info read_command run_command float_of_digits str_integral.
Definition run_main : options -> flags -> world -> outcome unit * world :=
  main Store raster3d_info read_command run_command float_of_digits str_integral.

(** A decidable form of the dict invariant. *)
Fixpoint wfb (d : dict) : bool :=
  match d with
  | [] => true
  | (k, _) :: r => forallb (fun kv => negb (feq k (fst kv))) r && wfb r
  end.

Lemma wfb_wf d : wfb d = true -> wf d.
Proof.
  induction d as [|[k v] r IH]; cbn [wfb wf]; [trivial|].
  intros H. apply andb_prop in H. destruct H as [H1 H2]. split; [|apply IH; exact H2].
  intros k' v' Hin. rewrite forallb_forall in H1. specialize (H1 _ Hin). cbn [fst] in H1.
  destruct (feq k k'); [discriminate | reflexivity].
Qed.

(** Four bands with their wavelengths in the metadata. *)
Definition four_bands : Store :=
  MkStore "hyper" 4
    [("hyper#1", "wavelength=450"); ("hyper#2", "wavelength=550");
     ("hyper#3", "wavelength=650"); ("hyper#4", "wavelength=800")].

(** Two bands whose wavelengths come in descending order. *)
Definition descending : Store :=
  MkStore "hyper" 2 [("hyper#1", "wavelength=600"); ("hyper#2", "wavelength=500")].

(** Three bands, the first two at the same wavelength. *)
Definition repeated : Store :=
  MkStore "hyper" 3
    [("hyper#1", "title=first" ++ String PyStr.newline "Wavelength= 650 ");
     ("hyper#2", "wavelength=650"); ("hyper#3", "wavelength=550")].

(** Ten bands without metadata. *)
Definition bare : Store := MkStore "hyper" 10 [].

Definition rgb_options (colorblind : string) : options :=
  Options "hyper" "out" "rgb" "mean" colorblind "650" "550" "450" "490" "580" "570" "800".

Definition cmyk_options (colorblind : string) : options :=
  Options "hyper" "out" "cmyk" "mean" colorblind "650" "550" "450" "490" "580" "570" "800".

End Session.

(** ** The theorems at work *)

Section Examples.
Import PyFloat PyDict PySeq Session.
Local Open Scope string_scope.

(** The catalog of [four_bands]. *)
Definition four_band_catalog : dict :=
  [(of_int 450, 1); (of_int 550, 2); (of_int 650, 3); (of_int 800, 4)].

(** The catalog of [descending]. *)
Definition descending_catalog : dict := [(of_int 600, 1); (of_int 500, 2)].

End Examples.

(** The string methods on the shapes of metadata the scan meets. *)
Example split_three : PyStr.split "=" "a=b=c" = ["a"; "b"; "c"]%string.
Proof. reflexivity. Qed.

Example split_no_separator : PyStr.split "=" "wavelength" = ["wavelength"]%string.
Proof. reflexivity. Qed.

Example split_empty : PyStr.split "=" "" = [""]%string.
Proof. reflexivity. Qed.

Example strip_both_ends : PyStr.strip "  650 " = "650"%string.
Proof. reflexivity. Qed.

Example contains_any_case :
  PyStr.contains "wavelength" (PyStr.lower "Band WaveLength=650") = true.
Proof. reflexivity. Qed.

(** A line with "wavelength" that does not split in two is passed over;
    the next line that qualifies decides. *)
Example scan_lines_skips_malformed :
  scan_lines Session.float_of_digits
    ["wavelength unit=nm=x"; "center wavelength = 650"; "wavelength=700"]%string
  = Wavelength (PyFloat.of_int 650).
Proof. vm_compute. reflexivity. Qed.

(** A value that does not parse ends the scan of the band. *)
Example scan_lines_parse_error :
  scan_lines Session.float_of_digits ["wavelength=red"; "wavelength=700"]%string = ParseError.
Proof. reflexivity. Qed.

(** The end-to-end scenario with metadata: the targets 650, 550 and 450
    meet bands 3, 2 and 1 at distance zero. *)
Example four_bands_exact_matches :
  fst (Session.run_get_band_wavelengths "hyper" (Session.start Session.four_bands))
    = Return four_band_catalog /\
  find_closest_band (PyFloat.of_int 650) four_band_catalog = inr (3, PyFloat.of_int 650) /\
  find_closest_band (PyFloat.of_int 550) four_band_catalog = inr (2, PyFloat.of_int 550) /\
  find_closest_band (PyFloat.of_int 450) four_band_catalog = inr (1, PyFloat.of_int 450) /\
  distance (PyFloat.of_int 650) (PyFloat.of_int 650) = S754_zero false.
Proof. repeat split; vm_compute; reflexivity. Qed.

(** A NaN key that was stored first stays the running best of [min]
    ([<] is false against NaN), and the lookup finds it by identity. *)
Example nan_key_first :
  find_closest_band (PyFloat.of_int 500) [(PyFloat.nan, 7); (PyFloat.of_int 500, 2)]
  = inr (7, PyFloat.nan).
Proof. reflexivity. Qed.

(** Two NaN wavelengths are two entries; a duplicate of a number is one. *)
Example nan_keys_do_not_merge :
  PyDict.setitem (PyDict.setitem [] PyFloat.nan 1) PyFloat.nan 2
  = [(PyFloat.nan, 1); (PyFloat.nan, 2)] /\
  PyDict.setitem (PyDict.setitem [] (PyFloat.of_int 650) 1) (PyFloat.of_int 650) 2
  = [(PyFloat.of_int 650, 2)].
Proof. split; vm_compute; reflexivity. Qed.

(** The mean of three bands. *)
Example mean_of_three :
  fst (Session.run_calculate_statistic "hyper" [1; 2; 3] "mean" (Session.start Session.bare))
  = Return (PStr "(hyper#1 + hyper#2 + hyper#3) / 3", None).
Proof. reflexivity. Qed.

(** [find_closest_band_closest] on the catalog of [four_bands], target 560. *)
Lemma find_closest_band_closest_witness :
  PyDict.wf four_band_catalog /\ four_band_catalog <> [] /\
  exists band closest_wl,
    find_closest_band (PyFloat.of_int 560) four_band_catalog = inr (band, closest_wl) /\
    In (closest_wl, band) four_band_catalog /\
    (PyFloat.feq closest_wl closest_wl = true ->
     PyDict.getitem four_band_catalog closest_wl = Some band) /\
    (forall k b, In (k, b) four_band_catalog ->
       PyFloat.flt (PyFloat.fabs (PyFloat.fsub k (PyFloat.of_int 560)))
                   (PyFloat.fabs (PyFloat.fsub closest_wl (PyFloat.of_int 560))) = false).
Proof.
  assert (Hwf : PyDict.wf four_band_catalog) by (apply Session.wfb_wf; reflexivity).
  assert (Hne : four_band_catalog <> []) by discriminate.
  split; [exact Hwf|]. split; [exact Hne|].
  exact (find_closest_band_closest (PyFloat.of_int 560) four_band_catalog Hwf Hne).
Defined.

(** C2 fails on the script.  The bands of [descending] carry 600 nm and
    500 nm, in this order; both are 50 nm from the target 550; 500 is the
    smaller key, and [find_closest_band] returns 600, the key scanned
    first. *)
Lemma find_closest_band_tie_counterexample :
  Session.run_get_band_wavelengths "hyper" (Session.start Session.descending) =
    (Return descending_catalog,
     World Session.descending [Verbose "Scanning 2 bands for wavelength metadata..."]) /\
  distance (PyFloat.of_int 550) (PyFloat.of_int 500) = PyFloat.of_int 50 /\
  distance (PyFloat.of_int 550) (PyFloat.of_int 600) = PyFloat.of_int 50 /\
  PyFloat.flt (PyFloat.of_int 500) (PyFloat.of_int 600) = true /\
  find_closest_band (PyFloat.of_int 550) descending_catalog = inr (1, PyFloat.of_int 600).
Proof. repeat split; vm_compute; reflexivity. Qed.

(** The catalog of [four_bands] is in ascending key order. *)
Lemma four_band_catalog_ascending : PyDict.ascending four_band_catalog.
Proof.
  unfold four_band_catalog. cbn [PyDict.ascending].
  repeat split; intros k' v' Hin; cbn [In] in Hin;
    repeat (destruct Hin as [Hin|Hin]; [injection Hin as <- _; vm_compute; reflexivity|]);
    destruct Hin.
Qed.

(** [find_closest_band_first_inserted] on the catalog of [four_bands],
    which is in ascending order, with the target 600: the keys 550 and
    650 are both at distance 50, the key 450 stands before them, and 550
    (band 2) is returned. *)
Lemma find_closest_band_first_inserted_witness :
  PyDict.wf four_band_catalog /\ four_band_catalog <> [] /\
  PyDict.ascending four_band_catalog /\
  find_closest_band (PyFloat.of_int 600) four_band_catalog = inr (2, PyFloat.of_int 550) /\
  PyFloat.fabs (PyFloat.fsub (PyFloat.of_int 550) (PyFloat.of_int 600)) = PyFloat.of_int 50 /\
  PyFloat.fabs (PyFloat.fsub (PyFloat.of_int 650) (PyFloat.of_int 600)) = PyFloat.of_int 50 /\
  exists band closest_wl l1 l2,
    find_closest_band (PyFloat.of_int 600) four_band_catalog = inr (band, closest_wl) /\
    four_band_catalog = (l1 ++ (closest_wl, band) :: l2)%list /\
    (forall k b, In (k, b) four_band_catalog ->
       PyFloat.flt (PyFloat.fabs (PyFloat.fsub k (PyFloat.of_int 600)))
                   (PyFloat.fabs (PyFloat.fsub closest_wl (PyFloat.of_int 600))) = false) /\
    (forall k b, In (k, b) l1 ->
       PyFloat.fle (PyFloat.fabs (PyFloat.fsub k (PyFloat.of_int 600)))
                   (PyFloat.fabs (PyFloat.fsub closest_wl (PyFloat.of_int 600))) = false) /\
    (PyDict.ascending four_band_catalog ->
     forall k b, In (k, b) four_band_catalog ->
       PyFloat.feq (PyFloat.fabs (PyFloat.fsub k (PyFloat.of_int 600)))
                   (PyFloat.fabs (PyFloat.fsub closest_wl (PyFloat.of_int 600))) = true ->
       PyFloat.fle closest_wl k = true).
Proof.
  assert (Hwf : PyDict.wf four_band_catalog) by (apply Session.wfb_wf; reflexivity).
  assert (Hne : four_band_catalog <> []) by discriminate.
  split; [exact Hwf|]. split; [exact Hne|].
  split; [exact four_band_catalog_ascending|].
  split; [vm_compute; reflexivity|].
  split; [vm_compute; reflexivity|].
  split; [vm_compute; reflexivity|].
  exact (find_closest_band_first_inserted (PyFloat.of_int 600) four_band_catalog Hwf Hne).
Defined.

(** [get_band_wavelengths_fallback] on [bare]. *)
Lemma get_band_wavelengths_fallback_witness :
  Session.raster3d_info Session.bare "hyper" = inl (R3Info 10) /\
  Session.scan Session.bare "hyper" 10 = [] /\
  Session.run_get_band_wavelengths "hyper" (Session.start Session.bare) =
    (Return (dict_display (band_number_items 10)),
     World Session.bare [Verbose (scanning_message 10); Warning no_metadata_warning]) /\
  (10 < 2 ^ 53 -> dict_display (band_number_items 10) = band_number_items 10).
Proof.
  assert (H1 : Session.raster3d_info Session.bare "hyper" = inl (R3Info 10)) by reflexivity.
  assert (H2 : Session.scan Session.bare "hyper" 10 = []) by reflexivity.
  split; [exact H1|]. split; [exact H2|].
  exact (get_band_wavelengths_fallback Session.Store Session.raster3d_info
           Session.read_command Session.float_of_digits
           "hyper" (Session.start Session.bare) (R3Info 10) H1 H2).
Defined.

(** [get_band_wavelengths_last_wins] on [repeated]: bands 1 and 2 both
    carry 650 nm, band 3 carries 550 nm. *)
Lemma get_band_wavelengths_last_wins_witness :
  Session.wavelength_of Session.repeated "hyper" 1 = Some (PyFloat.of_int 650) /\
  Session.wavelength_of Session.repeated "hyper" 2 = Some (PyFloat.of_int 650) /\
  exists catalog w' last,
    Session.run_get_band_wavelengths "hyper" (Session.start Session.repeated) =
      (Return catalog, w') /\
    2 <= last <= 3 /\
    (exists wl, Session.wavelength_of Session.repeated "hyper" last = Some wl /\
                PyFloat.feq wl (PyFloat.of_int 650) = true) /\
    (forall j' w', last < j' <= 3 ->
       Session.wavelength_of Session.repeated "hyper" j' = Some w' ->
       PyFloat.feq w' (PyFloat.of_int 650) = false) /\
    PyDict.getitem catalog (PyFloat.of_int 650) = Some last /\
    PyDict.getitem catalog (PyFloat.of_int 650) = Some last /\
    ((forall j' w', 2 < j' <= 3 ->
        Session.wavelength_of Session.repeated "hyper" j' = Some w' ->
        PyFloat.feq w' (PyFloat.of_int 650) = false) ->
     last = 2).
Proof.
  assert (H1 : Session.wavelength_of Session.repeated "hyper" 1 = Some (PyFloat.of_int 650))
    by (vm_compute; reflexivity).
  assert (H2 : Session.wavelength_of Session.repeated "hyper" 2 = Some (PyFloat.of_int 650))
    by (vm_compute; reflexivity).
  split; [exact H1|]. split; [exact H2|].
  refine (get_band_wavelengths_last_wins Session.Store Session.raster3d_info
            Session.read_command Session.float_of_digits
            "hyper" (Session.start Session.repeated) (R3Info 3) 1 2
            (PyFloat.of_int 650) (PyFloat.of_int 650)
            eq_refl _ _ _ H1 H2 eq_refl).
  - cbv; discriminate.
  - reflexivity.
  - cbv; discriminate.
Defined.

(** C6 fails on the script.  "sdfoo" is not one of the eleven statistics,
    and [calculate_statistic] returns a plan for it. *)
Lemma calculate_statistic_sdfoo_counterexample :
  ~ In "sdfoo"%string enumerated_statistics /\
  Session.run_calculate_statistic "hyper" [1; 2] "sdfoo" (Session.start Session.bare) =
    (Return (PList ["hyper#1"; "hyper#2"]%string, Some "sdfoo"%string),
     Session.start Session.bare).
Proof.
  split; [|reflexivity].
  intros H. repeat (destruct H as [H|H]; [discriminate H|]). exact H.
Qed.

(** [calculate_statistic_unknown] on the statistic "variance". *)
Lemma calculate_statistic_unknown_witness :
  ~ In "variance"%string named_statistics /\
  PyStr.startswith "variance" "sd" = false /\
  Session.run_calculate_statistic "hyper" [1; 2] "variance" (Session.start Session.bare) =
    (Fatal "Unknown statistic: variance", Session.start Session.bare).
Proof.
  assert (H1 : ~ In "variance"%string named_statistics).
  { intros H. repeat (destruct H as [H|H]; [discriminate H|]). exact H. }
  assert (H2 : PyStr.startswith "variance" "sd" = false) by reflexivity.
  split; [exact H1|]. split; [exact H2|].
  exact (calculate_statistic_unknown Session.Store "hyper" [1; 2] "variance"
           (Session.start Session.bare) H1 H2).
Defined.

(** [calculate_statistic_sd] on "sd2_pos". *)
Lemma calculate_statistic_sd_witness :
  PyStr.startswith "sd2_pos" "sd" = true /\
  Session.run_calculate_statistic "hyper" [3; 4; 5] "sd2_pos" (Session.start Session.bare) =
    (Return (PList ["hyper#3"; "hyper#4"; "hyper#5"]%string, Some "sd2_pos"%string),
     Session.start Session.bare).
Proof.
  assert (H1 : PyStr.startswith "sd2_pos" "sd" = true) by reflexivity.
  split; [exact H1|].
  exact (calculate_statistic_sd Session.Store "hyper" [3; 4; 5] "sd2_pos"
           (Session.start Session.bare) H1).
Defined.

(** [ten_bands_without_metadata] on [bare], with the default targets. *)
Lemma ten_bands_without_metadata_witness :
  Session.scan Session.bare "hyper" 10 = [] /\
  (exists w', Session.run_get_band_wavelengths "hyper" (Session.start Session.bare) =
              (Return (band_number_items 10), w')) /\
  find_closest_band (PyFloat.of_int 650) (band_number_items 10) = inr (10, PyFloat.of_int 10) /\
  find_closest_band (PyFloat.of_int 550) (band_number_items 10) = inr (10, PyFloat.of_int 10) /\
  find_closest_band (PyFloat.of_int 450) (band_number_items 10) = inr (10, PyFloat.of_int 10) /\
  (exists st',
     Session.run_rgb (Session.rgb_options "none") (Flags false) (Session.start Session.bare) =
     (Return tt,
      World st' ([] ++ rgb_events Session.Store Session.read_command Session.float_of_digits
                         Session.str_integral Session.bare
                         (Session.rgb_options "none") (Flags false) 10
                         (10, PyFloat.of_int 10) (10, PyFloat.of_int 10)
                         (10, PyFloat.of_int 10)))).
Proof.
  assert (H2 : Session.scan Session.bare "hyper" 10 = []) by reflexivity.
  split; [exact H2|].
  exact (ten_bands_without_metadata Session.Store Session.raster3d_info Session.read_command
           Session.run_command Session.float_of_digits Session.str_integral
           (Session.rgb_options "none") (Flags false) (Session.start Session.bare) (R3Info 10)
           eq_refl eq_refl H2 eq_refl eq_refl eq_refl Session.accepts).
Defined.


(** C9 fails on the script.  A CMYK assembly with the colorblind mode
    protanopia runs to its end and prints no warning at all. *)
Lemma cmyk_colorblind_counterexample :
  opt_colorblind (Session.cmyk_options "protanopia") = "protanopia"%string /\
  fst (Session.run_main (Session.cmyk_options "protanopia") (Flags false)
                        (Session.start Session.four_bands)) = Return tt /\
  warnings (log (snd (Session.run_main (Session.cmyk_options "protanopia") (Flags false)
                                       (Session.start Session.four_bands)))) = [].
Proof. repeat split; vm_compute; reflexivity. Qed.

(** [colorblind_step_only_warns] on [four_bands] with the mode
    protanopia. *)
Lemma colorblind_step_only_warns_witness :
  In (opt_colorblind (Session.rgb_options "protanopia")) colorblind_modes /\
  (exists w',
     Session.run_rgb (Session.rgb_options "protanopia") (Flags false)
                     (Session.start Session.four_bands) = (Return tt, w') /\
     In (Warning (colorblind_warning "protanopia")) (log w')) /\
  (forall channels colorblind_type (w0 : Session.world),
     exists printed,
       Session.run_colorblind channels colorblind_type w0 =
       (Return channels, World (store w0) (log w0 ++ printed)) /\
       runs printed = []).
Proof.
  assert (H : In (opt_colorblind (Session.rgb_options "protanopia")) colorblind_modes)
    by (left; reflexivity).
  split; [exact H|].
  refine (colorblind_step_only_warns Session.Store Session.raster3d_info
            Session.read_command Session.run_command Session.float_of_digits
            Session.str_integral
            (Session.rgb_options "protanopia") (Flags false) (Session.start Session.four_bands)
            (R3Info 4) (PyFloat.of_int 650) (PyFloat.of_int 550) (PyFloat.of_int 450)
            eq_refl _ eq_refl eq_refl eq_refl Session.accepts H).
  cbv; discriminate.
Defined.

(** ** Further sessions *)

Section FurtherSessions.
Local Open Scope string_scope.

(** A stack without bands. *)
Definition no_bands : Session.Store := Session.MkStore "hyper" 0 [].

(** Options that name a map the store does not hold. *)
Definition missing_map_options : options :=
  Options "other" "out" "rgb" "mean" "none" "650" "550" "450" "490" "580" "570" "800".

(** Options with a colorspace the script does not know. *)
Definition hsv_options : options :=
  Options "hyper" "out" "hsv" "mean" "none" "650" "550" "450" "490" "580" "570" "800".

(** A store that refuses to write [out_green]. *)
Definition refuse_green (st : Session.Store) (c : command) : option Session.Store :=
  match c with
  | Command "g.copy" [("raster", Str "hyper#2,out_green"); ("quiet", PyTrue)] => None
  | _ => Some st
  end.

(** A session whose modules print a wavelength whatever they are asked,
    except [r.support -n], which prints what [Session.read_command]
    prints. *)
Definition chatty_read_command (st : Session.Store) (c : command) : option string :=
  match c with
  | Command "r.support" [("map", Str _); ("flags", Str "n")] => Session.read_command st c
  | _ => Some "wavelength=1"
  end.

End FurtherSessions.

(** [get_band_wavelengths_reads_band_metadata] on [four_bands]: the
    two sessions differ on every call but those of the scan, and give
    the same catalog. *)
Lemma get_band_wavelengths_reads_band_metadata_witness :
  (Session.read_command Session.four_bands (Command "r.info" [("map", Str "hyper#1")]%string)
   <> chatty_read_command Session.four_bands (Command "r.info" [("map", Str "hyper#1")]%string)) /\
  get_band_wavelengths Session.Store Session.raster3d_info chatty_read_command
    Session.float_of_digits "hyper" (Session.start Session.four_bands) =
  (Return four_band_catalog,
   World Session.four_bands [Verbose "Scanning 4 bands for wavelength metadata..."]).
Proof.
  split; [discriminate|].
  rewrite <- (get_band_wavelengths_reads_band_metadata Session.Store Session.raster3d_info
                Session.read_command chatty_read_command Session.float_of_digits
                "hyper" (Session.start Session.four_bands)
                (fun info i _ _ => eq_refl)).
  vm_compute. reflexivity.
Defined.

(** The missing-map stop on [bare]. *)
Lemma main_stops_without_raster_info_witness :
  Session.raster3d_info Session.bare "other" = inr "3D raster map <other> not found"%string /\
  Session.run_main missing_map_options (Flags false) (Session.start Session.bare) =
    (Fatal "Cannot get info for 3D raster other: 3D raster map <other> not found",
     World Session.bare [Message "Creating RGB composite..."]).
Proof.
  split; [reflexivity|].
  exact (main_stops_without_raster_info Session.Store Session.raster3d_info
           Session.read_command Session.run_command Session.float_of_digits
           Session.str_integral missing_map_options (Flags false)
           (Session.start Session.bare) "3D raster map <other> not found"
           (or_introl eq_refl) eq_refl).
Defined.

(** The unknown-colorspace stop on [bare], with the colorspace "hsv". *)
Lemma main_unknown_colorspace_witness :
  PyStr.isascii "hsv" = true /\
  Session.run_main hsv_options (Flags false) (Session.start Session.bare) =
    (Fatal "Unknown colorspace: hsv",
     World Session.bare [Message "Creating HSV composite..."]).
Proof.
  split; [reflexivity|].
  destruct (main_unknown_colorspace Session.Store Session.raster3d_info
              Session.read_command Session.run_command Session.float_of_digits
              Session.str_integral hsv_options (Flags false)
              (Session.start Session.bare)
              ltac:(discriminate) ltac:(discriminate)) as (opening & Hrun & Htext).
  rewrite (Htext eq_refl) in Hrun. exact Hrun.
Defined.

(** The catalog of [repeated] is sound. *)
Lemma get_band_wavelengths_catalog_sound_witness :
  exists wavelengths w',
    Session.run_get_band_wavelengths "hyper" (Session.start Session.repeated) =
      (Return wavelengths, w') /\
    PyDict.wf wavelengths /\
    (List.length wavelengths <= Z.to_nat 3)%nat /\
    (1 <= 3 -> wavelengths <> []) /\
    (forall k b, In (k, b) wavelengths ->
       1 <= b <= 3 /\
       exists wl,
         wavelength_of_band Session.Store Session.read_command Session.float_of_digits
                            Session.repeated "hyper" 3 b = Some wl /\
         (k = wl \/ PyFloat.feq k wl = true)).
Proof.
  exact (get_band_wavelengths_catalog_sound Session.Store Session.raster3d_info
           Session.read_command Session.float_of_digits
           "hyper" (Session.start Session.repeated) (R3Info 3) eq_refl).
Defined.

(** Both assemblies on [no_bands]. *)
Lemma empty_stack_raises_witness :
  Session.run_get_band_wavelengths "hyper" (Session.start no_bands) =
    (Return [], World no_bands [Verbose (scanning_message 0); Warning no_metadata_warning]) /\
  Session.run_rgb (Session.rgb_options "none") (Flags false) (Session.start no_bands) =
    (Raise ValueError,
     World no_bands [Verbose (scanning_message 0); Warning no_metadata_warning;
                     Message "Found 0 wavelength bands"]).
Proof.
  destruct (empty_stack_raises Session.Store Session.raster3d_info
              Session.read_command Session.run_command Session.float_of_digits
              Session.str_integral (Session.rgb_options "none") (Flags false)
              (Session.start no_bands) (R3Info 0) eq_refl ltac:(cbv; discriminate))
    as (H1 & _ & H2 & _).
  split; [exact H1 | exact H2].
Defined.


(** The green copy refused after the red one was made. *)
Lemma create_channels_stops_at_refused_copy_witness :
  create_channels Session.Store refuse_green "hyper" "out" false
    [("red"%string, 3); ("green"%string, 2); ("blue"%string, 1)] []
    (Session.start Session.four_bands) =
  (Raise CalledModuleError,
   World Session.four_bands
     [Message "Creating red channel: out_red"; Run (g_copy "hyper#3" "out_red");
      Message "Creating green channel: out_green"; Run (g_copy "hyper#2" "out_green")]).
Proof.
  exact (create_channels_stops_at_refused_copy Session.Store refuse_green
           "hyper" "out" false [("red"%string, 3)] [("blue"%string, 1)] "green" 2
           [] ["out_red"]%string (Session.start Session.four_bands)
           (World Session.four_bands
              [Message "Creating red channel: out_red"; Run (g_copy "hyper#3" "out_red")])
           eq_refl eq_refl).
Defined.


(** The plan for "max". *)
Lemma calculate_statistic_admitted_witness :
  Session.run_calculate_statistic "hyper" [4; 5] "max" (Session.start Session.bare) =
    (Return (PList ["hyper#4"; "hyper#5"]%string, Some "maximum"%string),
     Session.start Session.bare).
Proof.
  refine (calculate_statistic_admitted Session.Store "hyper" [4; 5] "max"
            (Session.start Session.bare) _).
  do 4 right. left. reflexivity.
Defined.

(** The target 650 on the catalog of [four_bands]. *)
Lemma find_closest_band_exact_match_witness :
  find_closest_band (PyFloat.of_int 650) four_band_catalog = inr (3, PyFloat.of_int 650).
Proof.
  refine (find_closest_band_exact_match (PyFloat.of_int 650) four_band_catalog
            (PyFloat.of_int 650) 3 (Session.wfb_wf four_band_catalog eq_refl) _ eq_refl eq_refl _ eq_refl).
  - intros k' b' H.
    repeat (destruct H as [H|H]; [injection H as <- <-; split; reflexivity|]).
    destruct H.
  - do 2 right. left. reflexivity.
Defined.

(** Ten synthetic wavelengths and the target 650. *)
Lemma fallback_selects_last_band_witness :
  find_closest_band (PyFloat.of_int 650) (band_numbers 10) = inr (10, PyFloat.of_int 10).
Proof.
  refine (fallback_selects_last_band 10 650 _ _ _); [cbv; discriminate.. | reflexivity].
Defined.


(** The catalog of [four_bands]: one entry per band. *)
Lemma get_band_wavelengths_one_entry_per_band_witness :
  Session.run_get_band_wavelengths "hyper" (Session.start Session.four_bands) =
  (Return four_band_catalog,
   World Session.four_bands [Verbose (scanning_message 4)]).
Proof.
  refine (get_band_wavelengths_one_entry_per_band Session.Store Session.raster3d_info
            Session.read_command Session.float_of_digits
            "hyper" (Session.start Session.four_bands) (R3Info 4)
            (fun i => if i =? 1 then PyFloat.of_int 450
                      else if i =? 2 then PyFloat.of_int 550
                      else if i =? 3 then PyFloat.of_int 650
                      else PyFloat.of_int 800)
            eq_refl _ _ _).
  - cbv; discriminate.
  - intros i Hi. cbn [depths] in Hi.
    assert (E : i = 1 \/ i = 2 \/ i = 3 \/ i = 4) by lia.
    destruct E as [-> | [-> | [-> | ->]]]; vm_compute; reflexivity.
  - intros i j Hi Hij Hj. cbn [depths] in Hj.
    assert (E : (i = 1 /\ j = 2) \/ (i = 1 /\ j = 3) \/ (i = 1 /\ j = 4)
                \/ (i = 2 /\ j = 3) \/ (i = 2 /\ j = 4) \/ (i = 3 /\ j = 4)) by lia.
    repeat (destruct E as [[E1 E2]|E]; [subst i j; vm_compute; reflexivity|]).
    destruct E as [E1 E2]. subst i j. vm_compute. reflexivity.
Defined.
